(** * SmartSalaryBot: the conversation state machine of [graph.py] and the
    request dispatch of [main.py], embedded in Rocq.

    The Python state object is a [dict] (class [State(dict)]) that the four
    node functions mutate in place.  It is modelled as a finite map from key
    strings to Python values; a node function is a computation in a small
    state-and-exception monad over that map, so that the dictionary as it
    stands when an exception escapes is part of the result (the request
    handler keeps that very object in its store). *)

From Stdlib Require Import PrimFloat Ascii String.
From stdpp Require Import gmap strings list fin_maps.

Local Open Scope string_scope.

(** ** Python values held by the state dictionary *)

(** A [{"role": ..., "content": ...}] entry of [messages] or of
    [conversation_history]. *)
Record message := Message { role : string; content : string }.

(** The values the program stores under the keys of a [State]: [str]
    ([name], [step], [initial_advice], [followup_question]), [float]
    ([salary]) and [list] ([messages], [conversation_history]).  Strings are
    the UTF-8 bytes of the Python text. *)
Inductive value :=
| VStr (s : string)
| VFloat (x : float)
| VList (l : list message).

(** [class State(dict)] *)
Abbreviation State := (gmap string value).

(** The exceptions the node functions can raise. *)
Inductive exn :=
| KeyError (key : string)
| AttributeError (attr : string)
| TypeError.

(** ** What the Python runtime provides

    [str.lower], [str.strip] and the text an f-string produces for a value
    are library behaviour.  They are kept abstract,
    with the two facts the program relies on: [str.lower] works character by
    character as ASCII lower-casing on ASCII text, and an f-string inserts a
    [str] as it is. *)

Definition is_ascii_char (c : ascii) : bool := (nat_of_ascii c <? 128)%nat.

Fixpoint is_ascii (s : string) : bool :=
  match s with
  | EmptyString => true
  | String c s' => is_ascii_char c && is_ascii s'
  end.

Definition lower_char (c : ascii) : ascii :=
  let n := nat_of_ascii c in
  if ((65 <=? n) && (n <=? 90))%nat then ascii_of_nat (n + 32) else c.

Fixpoint lower_ascii (s : string) : string :=
  match s with
  | EmptyString => EmptyString
  | String c s' => String (lower_char c) (lower_ascii s')
  end.

Class PyRuntime := {
  str_lower : string -> string;
  str_strip : string -> string;
  py_format : value -> string;
  str_lower_ascii : forall s, is_ascii s = true -> str_lower s = lower_ascii s;
  py_format_str : forall s, py_format (VStr s) = s;
}.

(** ** The monad of in-place mutation with exceptions *)

Inductive outcome (A : Type) :=
| Returned (a : A)
| Raised (e : exn).
Arguments Returned {A} a.
Arguments Raised {A} e.

Definition Py (A : Type) : Type := State -> outcome A * State.

Definition ret {A} (a : A) : Py A := fun st => (Returned a, st).

Definition raise {A} (e : exn) : Py A := fun st => (Raised e, st).

Definition bind {A B} (m : Py A) (k : A -> Py B) : Py B :=
  fun st =>
    match m st with
    | (Returned a, st') => k a st'
    | (Raised e, st') => (Raised e, st')
    end.

Declare Scope py_scope.
Delimit Scope py_scope with py.
Notation "x <~ m ;; k" := (bind m (fun x => k))
  (at level 100, m at next level, right associativity) : py_scope.
Notation "m ;;; k" := (bind m (fun _ => k))
  (at level 100, right associativity) : py_scope.

Local Open Scope py_scope.

(** [state[key] = v] *)
Definition setitem (key : string) (v : value) : Py unit :=
  fun st => (Returned tt, <[key := v]> st).

(** [state.setdefault(key, v)], its result unused *)
Definition setdefault (key : string) (v : value) : Py unit :=
  fun st =>
    match st !! key with
    | Some _ => (Returned tt, st)
    | None => (Returned tt, <[key := v]> st)
    end.

(** [state[key]] *)
Definition getitem (key : string) : Py value :=
  fun st =>
    match st !! key with
    | Some v => (Returned v, st)
    | None => (Raised (KeyError key), st)
    end.

(** [state.get(key, dflt)] *)
Definition get_default (key : string) (dflt : value) : Py value :=
  fun st => (Returned (default dflt (st !! key)), st).

(** The attribute lookup [state[key].append]: only a list has the method. *)
Definition append_method (key : string) : Py (list message) :=
  v <~ getitem key ;;
  match v with
  | VList l => ret l
  | _ => raise (AttributeError "append")
  end.

(** [state[key].append({"role": r, "content": c})], where [c] is a
    computation: Python looks the method up first, evaluates the argument
    next and only then appends.  The lists under [messages] and
    [conversation_history] are distinct objects ([setdefault] makes each
    from a list of its own), so an append is an update of that key alone. *)
Definition append_to (key : string) (r : string) (c : Py string) : Py unit :=
  l <~ append_method key ;;
  txt <~ c ;;
  setitem key (VList (l ++ [Message r txt])).

(** ** String helpers *)

(** The line feed and the double quote, which Python writes with escapes. *)
Definition nl : string := String "010"%char EmptyString.
Definition dquote : string := String "034"%char EmptyString.

(** [sub in s] on two [str] *)
Fixpoint contains (sub s : string) : bool :=
  String.prefix sub s ||
  match s with
  | EmptyString => false
  | String _ s' => contains sub s'
  end.

(** [sep.join(parts)] *)
Fixpoint join (sep : string) (parts : list string) : string :=
  match parts with
  | [] => ""
  | [p] => p
  | p :: rest => p ++ sep ++ join sep rest
  end.

(** [l[-3:]] on a list *)
Definition last3 {A} (l : list A) : list A := drop (length l - 3) l.

(** ** graph.py *)

Definition fallback : string :=
  "I apologize, but I'm having trouble generating personalized advice right now. Here's some general financial guidance: Consider creating a budget, building an emergency fund with 3-6 months of expenses, and investing in your retirement. Please try again later for personalized advice.".

Definition end_phrases : list string :=
  ["thanks"; "thank you"; "bye"; "goodbye"; "that's all"; "no more questions";
   "that's enough"; "done"; "finish"; "end"; "exit"; "quit"].

(** [any(phrase in lowered for phrase in end_phrases)] *)
Definition wants_to_end (lowered : string) : bool :=
  existsb (fun phrase => contains phrase lowered) end_phrases.

Definition advice_prompt (n sal : string) : string :=
  "You are a friendly and knowledgeable Indian financial advisor. "
  ++ "The user's name is " ++ n ++ " and their monthly salary is ₹" ++ sal ++ ". "
  ++ "Analyze their salary and create a personalized, detailed money management plan. "
  ++ "Break down their salary into percentages and rupee amounts for needs, wants, savings, investments, and insurance. "
  ++ "Include actionable advice for: " ++ nl
  ++ "1. Budgeting (using a 50-30-20 or similar rule)" ++ nl
  ++ "2. Building an emergency fund" ++ nl
  ++ "3. Suitable insurance coverage (term life, health, etc.)" ++ nl
  ++ "4. Investment options (SIPs, PPF, ELSS, index funds)" ++ nl
  ++ "5. Short-term and long-term savings tips" ++ nl
  ++ "6. Practical money habits to follow in India." ++ nl
  ++ "Make the advice structured, clear, and motivational also End by asking if they have any other questions.".

(** The list comprehension and [join] of [previous_context], on the slice
    already taken. *)
Definition previous_context (items : list message) : string :=
  join nl (map (fun item => "- " ++ content item) items).

Definition followup_context (n sal adv prev q : string) : string :=
  "You are a friendly and knowledgeable Indian financial advisor. Here's the context:" ++ nl
  ++ "- User's name: " ++ n ++ nl
  ++ "- Monthly salary: " ++ sal ++ " INR" ++ nl
  ++ "- Initial advice given: " ++ adv ++ nl ++ nl
  ++ "Previous conversation:" ++ nl ++ prev ++ nl ++ nl
  ++ "The user is asking a follow-up question: " ++ dquote ++ q ++ dquote ++ nl ++ nl
  ++ "Provide a helpful, detailed answer that builds on the previous advice. Keep it friendly and practical. "
  ++ "If the question is unclear, ask for clarification. End by asking if they have any other questions.".

Definition farewell (n : string) : string :=
  "You're welcome, " ++ n ++ "! I'm glad I could help with your financial planning. Best of luck with your financial goals!".

Section Graph.
Context `{PyRuntime}.

(** The Gemini client: [model.invoke([HumanMessage(content=prompt)])]
    followed by [.content]; [None] when anything in the [try] block raises
    an [Exception]. *)
Variable model : string -> option string.

Definition ask_gemini (prompt : string) : string :=
  match model prompt with
  | Some text => str_strip text
  | None => fallback
  end.

(** [f"{state[key]}"] *)
Definition fmt_item (key : string) : Py string :=
  v <~ getitem key ;; ret (py_format v).

Definition ask_name : Py unit :=
  setitem "step" (VStr "ask_name") ;;;
  setdefault "messages" (VList []) ;;;
  append_to "messages" "assistant" (ret "Hi! What is your name?").

Definition ask_salary : Py unit :=
  setitem "step" (VStr "ask_salary") ;;;
  setdefault "messages" (VList []) ;;;
  append_to "messages" "assistant"
    (n <~ fmt_item "name" ;;
     ret ("Namaste " ++ n ++ "! 👋 I’m your friendly Indian financial advisor, here to guide you with smart budgeting, savings, investments, and insurance tips. To get started, could you please share your monthly salary?")).

Definition give_advice : Py unit :=
  setitem "step" (VStr "advice") ;;;
  setdefault "messages" (VList []) ;;;
  setdefault "conversation_history" (VList []) ;;;
  n <~ fmt_item "name" ;;
  sal <~ fmt_item "salary" ;;
  let advice := ask_gemini (advice_prompt n sal) in
  setitem "initial_advice" (VStr advice) ;;;
  append_to "conversation_history" "system"
    (n' <~ fmt_item "name" ;;
     sal' <~ fmt_item "salary" ;;
     ret ("Initial advice given for " ++ n' ++ " (salary: $" ++ sal' ++ "): " ++ advice)) ;;;
  append_to "messages" "assistant" (ret advice) ;;;
  setitem "step" (VStr "followup").

(** [user_question.lower()]: only a [str] has the method. *)
Definition lower_method (v : value) : Py string :=
  match v with
  | VStr q => ret (str_lower q)
  | _ => raise (AttributeError "lower")
  end.

(** The items the comprehension [for item in state['conversation_history'][-3:]]
    reads [item['content']] of.  A [str] can be sliced, and its characters
    cannot be indexed by ['content']; a [float] cannot be sliced. *)
Definition history_tail (v : value) : Py (list message) :=
  match v with
  | VList l => ret (last3 l)
  | VStr EmptyString => ret []
  | _ => raise TypeError
  end.

Definition handle_followup : Py unit :=
  setitem "step" (VStr "followup") ;;;
  setdefault "messages" (VList []) ;;;
  setdefault "conversation_history" (VList []) ;;;
  user_question <~ get_default "followup_question" (VStr "") ;;
  lowered <~ lower_method user_question ;;
  if wants_to_end lowered then
    setitem "step" (VStr "conversation_ended") ;;;
    append_to "messages" "assistant"
      (n <~ fmt_item "name" ;; ret (farewell n))
  else
    hist <~ getitem "conversation_history" ;;
    items <~ history_tail hist ;;
    n <~ fmt_item "name" ;;
    sal <~ fmt_item "salary" ;;
    adv <~ get_default "initial_advice" (VStr "N/A") ;;
    let context :=
      followup_context n sal (py_format adv) (previous_context items)
                       (py_format user_question) in
    let followup_response := ask_gemini context in
    append_to "conversation_history" "user"
      (ret ("Follow-up question: " ++ py_format user_question)) ;;;
    append_to "conversation_history" "assistant"
      (ret ("Follow-up response: " ++ followup_response)) ;;;
    append_to "messages" "assistant" (ret followup_response).

End Graph.

(** A runtime for ASCII text, to run the model on concrete inputs. *)
Definition is_space (c : ascii) : bool :=
  let n := nat_of_ascii c in
  ((n =? 32) || ((9 <=? n) && (n <=? 13)) || ((28 <=? n) && (n <=? 31)))%nat.

Fixpoint lstrip (s : string) : string :=
  match s with
  | String c s' => if is_space c then lstrip s' else s
  | EmptyString => EmptyString
  end.

Definition strip_ascii (s : string) : string :=
  String.rev (lstrip (String.rev (lstrip s))).

Definition ascii_runtime (fmt_other : value -> string) : PyRuntime := {|
  str_lower := lower_ascii;
  str_strip := strip_ascii;
  py_format v := match v with VStr s => s | _ => fmt_other v end;
  str_lower_ascii := fun s _ => eq_refl;
  py_format_str := fun s => eq_refl;
|}.

(** The nodes [build_graph] registers, by the function each one runs. *)
Inductive node := AskName | AskSalary | Advice | Followup.

Definition node_function `{PyRuntime} (model : string -> option string)
    (nd : node) : Py unit :=
  match nd with
  | AskName => ask_name
  | AskSalary => ask_salary
  | Advice => give_advice model
  | Followup => handle_followup model
  end.

(** ** main.py *)

(** [class UserInput(BaseModel)]: every field is optional. *)
Record UserInput := {
  name : option string;
  salary : option float;
  conversation_id : option string;
  followup_question : option string;
}.

(** What [chat] gives back: the JSON object of a normal reply, or the
    [HTTPException] it raises.  The detail of a 500 is a fixed text followed
    by [str(e)]; it is kept as the text and the exception. *)
Inductive response :=
| Reply (messages : value) (step : option value) (cid : string) (ended : bool)
| HTTPException (status_code : nat) (detail : string) (cause : option exn).

(** [conversation_states]: the module-level store. *)
Abbreviation Store := (gmap string State).

(** [v == s] for a value that may be missing ([None]) and a [str] literal. *)
Definition eq_str (v : option value) (s : string) : bool :=
  match v with
  | Some (VStr t) => String.eqb t s
  | _ => false
  end.

(** [not state]: a dictionary is false when it has no key. *)
Definition falsy (st : State) : bool := bool_decide (dom st = (∅ : gset string)).

(** [state.get("messages", [])] *)
Definition get_messages (st : State) : value := default (VList []) (st !! "messages").

Section Main.
Context `{PyRuntime}.
Variable model : string -> option string.

(** The regular-expression heuristics that pick a name out of a sentence;
    kept abstract, nothing below depends on what they return. *)
Variable extract_name_from_text : string -> string.

(** [chat]; [uuid4] is the identifier [uuid.uuid4()] would draw.  The
    state fetched from the store is the stored object itself, so what a
    node function did to it before raising stays in the store. *)
Definition chat (uuid4 : string) (user_input : UserInput)
    (conversation_states : Store) : response * Store :=
  let conversation_id :=
    match conversation_id user_input with
    | Some (String c rest) => String c rest
    | _ => uuid4
    end in
  let state := default ∅ (conversation_states !! conversation_id) in
  if falsy state then
    match ask_name ∅ with
    | (Returned _, state) =>
        (Reply (get_messages state) (state !! "step") conversation_id false,
         <[conversation_id := state]> conversation_states)
    | (Raised e, _) =>
        (HTTPException 500 "Error starting conversation: " (Some e),
         conversation_states)
    end
  else
    let step := state !! "step" in
    if eq_str step "ask_name" then
      match name user_input with
      | None => (Reply (get_messages state) step conversation_id false,
                 conversation_states)
      | Some text =>
          match (setitem "name" (VStr (extract_name_from_text text)) ;;;
                 ask_salary) state with
          | (Returned _, state) =>
              (Reply (get_messages state) (state !! "step") conversation_id false,
               <[conversation_id := state]> conversation_states)
          | (Raised e, state) =>
              (HTTPException 500 "Error processing name: " (Some e),
               <[conversation_id := state]> conversation_states)
          end
      end
    else if eq_str step "ask_salary" then
      match salary user_input with
      | None => (Reply (get_messages state) step conversation_id false,
                 conversation_states)
      | Some x =>
          if PrimFloat.leb x 0%float then
            (HTTPException 400 "Please provide a valid positive salary amount" None,
             conversation_states)
          else
            match (setitem "salary" (VFloat x) ;;; give_advice model) state with
            | (Returned _, state) =>
                (Reply (get_messages state) (state !! "step") conversation_id false,
                 <[conversation_id := state]> conversation_states)
            | (Raised e, state) =>
                (HTTPException 500 "Error generating advice: " (Some e),
                 <[conversation_id := state]> conversation_states)
            end
      end
    else if eq_str step "followup" then
      match followup_question user_input with
      | None => (Reply (get_messages state) step conversation_id false,
                 conversation_states)
      | Some q =>
          match (setitem "followup_question" (VStr q) ;;;
                 handle_followup model) state with
          | (Returned _, state) =>
              if eq_str (state !! "step") "conversation_ended" then
                (Reply (get_messages state) (Some (VStr "conversation_ended"))
                       conversation_id true,
                 delete conversation_id conversation_states)
              else
                (Reply (get_messages state) (state !! "step") conversation_id false,
                 <[conversation_id := state]> conversation_states)
          | (Raised e, state) =>
              (HTTPException 500 "Error handling follow-up: " (Some e),
               <[conversation_id := state]> conversation_states)
          end
      end
    else if eq_str step "conversation_ended" then
      (Reply (get_messages state) (Some (VStr "conversation_ended"))
             conversation_id true,
       delete conversation_id conversation_states)
    else
      (HTTPException 400
         "Invalid conversation state. Please start a new conversation." None,
       delete conversation_id conversation_states).

End Main.

(** * Vocabulary of the properties *)

(** The list under [key]: empty when the key is missing. *)
Definition list_at (key : string) (st : State) : list message :=
  match st !! key with
  | Some (VList l) => l
  | _ => []
  end.

Definition messages_of : State -> list message := list_at "messages".
Definition history_of : State -> list message := list_at "conversation_history".

(** A key declared [list] in [State] holds a list when it is there at all. *)
Definition list_or_absent (o : option value) : bool :=
  match o with
  | None | Some (VList _) => true
  | Some _ => false
  end.

(** [messages] only grows at its end. *)
Definition msgs_mono (st st' : State) : Prop :=
  messages_of st `prefix_of` messages_of st'.

(** [preserves R m]: whatever [m] does to the dictionary, returning or
    raising, the dictionary it leaves is related by [R] to the one it found. *)
Definition preserves (R : relation State) {A} (m : Py A) : Prop :=
  ∀ st, R st (m st).2.

(** An argument of [append] that only reads the dictionary. *)
Definition readonly {A} (c : Py A) : Prop := ∀ st, (c st).2 = st.

(** What [key] holds, or that it is missing, has not changed. *)
Definition keeps (key : string) (st st' : State) : Prop := st' !! key = st !! key.

(** The keys the node functions assign to or append under. *)
Definition written_keys : list string :=
  ["step"; "messages"; "conversation_history"; "initial_advice"].

(** A run of follow-up requests as [chat] makes them: each one stores the
    question, then calls [handle_followup]; the service may answer each
    request differently. *)
Definition followup_rounds `{PyRuntime}
    (rounds : list ((string -> option string) * string)) (st : State) : State :=
  foldl (λ st '(model, q),
           (handle_followup model (<["followup_question" := VStr q]> st)).2)
        st rounds.

(** The two keys declared [list] hold lists where they are set. *)
Definition lists_ok (st : State) : bool :=
  list_or_absent (st !! "messages") &&
  list_or_absent (st !! "conversation_history").

(** [sub] occurs in [s] as a run of consecutive characters. *)
Definition is_substring (sub s : string) : Prop :=
  ∃ pre post, s = pre ++ sub ++ post.

(** The lower-cased question has one of the twelve phrases inside it. *)
Definition mentions_end_phrase (lowered : string) : Prop :=
  ∃ phrase, phrase ∈ end_phrases ∧ is_substring phrase lowered.


(** A runtime and two services to run the model on concrete inputs: floats
    print as [50000.0]; one service raises, the other answers. *)
Definition demo_runtime : PyRuntime := ascii_runtime (λ _, "50000.0").
Definition service_down : string -> option string := λ _, None.
Definition service_up : string -> option string := λ _, Some "  Save more.  ".

(** States of a conversation with Asha at its successive steps. *)
Definition asha_named : State := {[ "name" := VStr "Asha" ]}.

Definition asha_salaried : State :=
  {[ "step" := VStr "ask_salary"; "name" := VStr "Asha";
     "salary" := VFloat 50000 ]}.

Definition asha_advised : State :=
  {[ "step" := VStr "followup"; "name" := VStr "Asha";
     "salary" := VFloat 50000; "initial_advice" := VStr "Save more.";
     "messages" := VList [Message "assistant" "Save more."];
     "conversation_history" := VList [Message "system" "Initial advice"] ]}.

Definition asha_ended : State :=
  {[ "step" := VStr "conversation_ended"; "name" := VStr "Asha";
     "salary" := VFloat 50000;
     "followup_question" := VStr "what about tax saving?" ]}.

(** [asha_salaried] with a key that is not a state field. *)
Definition asha_annotated : State := <["request_count" := VFloat 3]> asha_salaried.

(** A store in which one conversation has a [step] the program never sets,
    and a request for that conversation. *)
Definition paused_state : State := {[ "step" := VStr "paused"; "name" := VStr "Asha" ]}.

Definition demo_store : Store :=
  {[ "c1" := paused_state; "c2" := {[ "step" := VStr "ask_name" ]} ]}.

Definition demo_request : UserInput :=
  {| name := None; salary := None; conversation_id := Some "c1";
     followup_question := Some "what about tax saving?" |}.

(** Question [q] is answered: [handle_followup] returns with
    [step = "followup"], has appended the question and then the answer to
    [conversation_history] and the answer alone to [messages]; the answer is
    what the service makes of the prompt built from [n], [sal], [adv], the
    last three entries of the history and [q]. *)
Definition answers_question `{PyRuntime} (model : string -> option string)
    (st st' : State) (out : outcome unit) (n sal adv q : string) : Prop :=
  let answer :=
    ask_gemini model
      (followup_context n sal adv (previous_context (last3 (history_of st))) q) in
  out = Returned tt ∧
  st' !! "step" = Some (VStr "followup") ∧
  history_of st' =
    (history_of st ++
       [Message "user" ("Follow-up question: " ++ q);
        Message "assistant" ("Follow-up response: " ++ answer)])%list ∧
  messages_of st' = (messages_of st ++ [Message "assistant" answer])%list.

(** [step] is one of the two values [handle_followup] assigns. *)
Definition settled (st : State) : Prop :=
  st !! "step" = Some (VStr "followup") ∨
  st !! "step" = Some (VStr "conversation_ended").

(** Once [step] is one of the two, it remains one of the two. *)
Definition stays_settled (st st' : State) : Prop := settled st -> settled st'.

(** The keys of a [State], as the program uses them. *)
Definition state_fields : list string :=
  ["step"; "name"; "salary"; "messages"; "conversation_history";
   "initial_advice"; "followup_question"].

(** Two dictionaries that are field-for-field copies of one another. *)
Definition agree (st1 st2 : State) : Prop :=
  Forall (λ key, st1 !! key = st2 !! key) state_fields.

(** [respects m]: on copies, [m] has the same outcome and leaves copies. *)
Definition respects {A} (m : Py A) : Prop :=
  ∀ st1 st2, agree st1 st2 ->
    (m st1).1 = (m st2).1 ∧ agree (m st1).2 (m st2).2.

(** The five values of [step] the conversation goes through. *)
Definition known_steps : list string :=
  ["ask_name"; "ask_salary"; "advice"; "followup"; "conversation_ended"].

(** [step] is there and is one of the five. *)
Definition has_known_step (st : State) : bool :=
  existsb (eq_str (st !! "step")) known_steps.

(** ** Vocabulary of the further properties *)

(** The greeting [ask_name] appends and the request [ask_salary] appends. *)
Definition greeting : message := Message "assistant" "Hi! What is your name?".

Definition salary_request (n : string) : message :=
  Message "assistant"
    ("Namaste " ++ n ++ "! 👋 I’m your friendly Indian financial advisor, here to guide you with smart budgeting, savings, investments, and insurance tips. To get started, could you please share your monthly salary?").

(** The list under [key] only grows at its end. *)
Definition list_mono (key : string) (st st' : State) : Prop :=
  list_at key st `prefix_of` list_at key st'.

(** [followup_question] is missing or holds a [str]. *)
Definition question_ok (st : State) : bool :=
  match st !! "followup_question" with
  | None | Some (VStr _) => true
  | Some _ => false
  end.

(** The node function stopped on a key the state does not have. *)
Definition missing_key (st : State) (out : outcome unit) : Prop :=
  ∃ key, out = Raised (KeyError key) ∧ st !! key = None ∧
         (key = "name" ∨ key = "salary").

(** The values [step] can have when the node function returns, and when it
    raises. *)
Definition step_after (nd : node) : list string :=
  match nd with
  | AskName => ["ask_name"]
  | AskSalary => ["ask_salary"]
  | Advice => ["followup"]
  | Followup => ["followup"; "conversation_ended"]
  end.

Definition step_on_failure (nd : node) : list string :=
  match nd with
  | AskName => []
  | AskSalary => ["ask_salary"]
  | Advice => ["advice"]
  | Followup => ["followup"; "conversation_ended"]
  end.

(** What a node function leaves behind: it returned and [step] is one of
    [steps], or it stopped on a missing key. *)
Definition lands_in (steps : list string) (st : State) (r : outcome unit * State) : Prop :=
  ∃ s, s ∈ steps ∧ r.2 !! "step" = Some (VStr s).

(** The identifier [chat] works under: the one in the request, or the drawn
    one when the request has none or an empty one. *)
Definition effective_id (uuid4 : string) (request : UserInput) : string :=
  match conversation_id request with
  | Some (String c rest) => String c rest
  | _ => uuid4
  end.

(** The state [ask_name] makes of an empty dictionary. *)
Definition opened : State :=
  {[ "step" := VStr "ask_name"; "messages" := VList [greeting] ]}.

(** [o is None] *)
Definition absent {A} (o : option A) : bool :=
  match o with
  | None => true
  | Some _ => false
  end.

(** The stored state is at a step whose input the request does not carry. *)
Definition awaits (st : State) (request : UserInput) : bool :=
  (eq_str (st !! "step") "ask_name" && absent (name request)) ||
  (eq_str (st !! "step") "ask_salary" && absent (salary request)) ||
  (eq_str (st !! "step") "followup" && absent (followup_question request)).

(** The key holds a [str]; the key holds a [float]. *)
Definition holds_str (o : option value) : bool :=
  match o with
  | Some (VStr _) => true
  | _ => false
  end.

Definition holds_float (o : option value) : bool :=
  match o with
  | Some (VFloat _) => true
  | _ => false
  end.

(** A state as [chat] stores it: well-formed lists, one of the three steps
    at which a conversation rests, and the inputs collected so far. *)
Definition conv_ok (st : State) : bool :=
  lists_ok st &&
  (eq_str (st !! "step") "ask_name"
   || (eq_str (st !! "step") "ask_salary" && holds_str (st !! "name"))
   || (eq_str (st !! "step") "followup" && holds_str (st !! "name")
         && holds_float (st !! "salary"))).

Definition store_ok (store : Store) : Prop :=
  map_Forall (λ _ st, conv_ok st = true) store.

(** A response that is a reply, or the refusal of a salary that is not
    positive: not a 500, not the restart error. *)
Definition benign (r : response) : Prop :=
  match r with
  | Reply _ _ _ _ => True
  | HTTPException code detail cause =>
      code = 400 ∧ detail = "Please provide a valid positive salary amount"
  end.

(** The requests of a server run, one after the other, each with the
    identifier that would be drawn and the service as it answers then. *)
Fixpoint serve `{PyRuntime} (extract : string -> string)
    (calls : list (string * (string -> option string) * UserInput))
    (store : Store) : list response * Store :=
  match calls with
  | [] => ([], store)
  | (uuid4, model, request) :: rest =>
      let r := chat model extract uuid4 request store in
      let rs := serve extract rest r.2 in
      (r.1 :: rs.1, rs.2)
  end.

(** A store with Asha's conversation at each of its resting steps, a
    conversation whose state lost its [name], and the request a client sends
    for a conversation. *)
Definition asha_store : Store :=
  {[ "a1" := opened; "a2" := <["messages" := VList [greeting]]> asha_salaried;
     "a3" := asha_advised; "a4" := asha_ended;
     "a5" := {[ "step" := VStr "followup" ]} ]}.

Definition request_for (cid : string) (n : option string) (x : option float)
    (q : option string) : UserInput :=
  {| name := n; salary := x; conversation_id := Some cid;
     followup_question := q |}.

(** ** [extract_name_from_text]

    The regular expressions are compiled by hand into scanners, for text
    whose characters are all ASCII: there [\s] is [is_space], [\w] is a
    letter, a digit or an underscore, [[a-zA-Z]] under [IGNORECASE] is a
    letter, and a literal under [IGNORECASE] matches a character whose lower
    case it is. *)

Definition is_letter (c : ascii) : bool :=
  let n := nat_of_ascii c in
  (((65 <=? n) && (n <=? 90)) || ((97 <=? n) && (n <=? 122)))%nat.

Definition is_word_char (c : ascii) : bool :=
  let n := nat_of_ascii c in
  (is_letter c || ((48 <=? n) && (n <=? 57)) || (n =? 95))%nat.

(** A lower-case literal of a pattern, at the start of [s]; gives what
    follows it. *)
Fixpoint literal_ci (lit s : string) : option string :=
  match lit, s with
  | EmptyString, _ => Some s
  | String l lit', String c s' =>
      if Ascii.eqb (lower_char c) l then literal_ci lit' s' else None
  | String _ _, EmptyString => None
  end.

(** The rest of the group [[a-zA-Z]+(?:\s+[a-zA-Z]+)*] after a letter:
    letters extend the word; white space is kept in [pending] and belongs to
    the match only once a letter follows it; anything else ends the match. *)
Fixpoint name_words (pending s : string) : string :=
  match s with
  | EmptyString => EmptyString
  | String c s' =>
      if is_letter c then pending ++ String c (name_words EmptyString s')
      else if is_space c then name_words (pending ++ String c EmptyString) s'
      else EmptyString
  end.

(** The group at the start of [s]: it needs a letter there. *)
Definition name_group (s : string) : option string :=
  match s with
  | String c _ => if is_letter c then Some (name_words EmptyString s) else None
  | EmptyString => None
  end.

(** One pattern [lit\s+(group)] ([lit\s*(group)] when [space_needed] is
    false) tried at the start of [s]: greedy [\s+] takes all the white space,
    and giving some back cannot help, as the group starts with a letter. *)
Definition intro_at (lit : string) (space_needed : bool) (s : string)
    : option string :=
  match literal_ci lit s with
  | None => None
  | Some rest =>
      let rest' := lstrip rest in
      if space_needed && (String.length rest' =? String.length rest)%nat
      then None
      else name_group rest'
  end.

(** [re.search(pattern, s, re.IGNORECASE)] followed by [match.group(1)]:
    the leftmost position at which the pattern matches. *)
Fixpoint re_search (lit : string) (space_needed : bool) (s : string)
    : option string :=
  match intro_at lit space_needed s with
  | Some g => Some g
  | None =>
      match s with
      | EmptyString => None
      | String _ s' => re_search lit space_needed s'
      end
  end.

(** [patterns]: the literal of each, and whether [\s+] (rather than [\s*])
    follows it. *)
Definition patterns : list (string * bool) :=
  [("my name is", true); ("i'm", true); ("i am", true); ("call me", true);
   ("name:", false); ("it's", true)].

(** The [for pattern in patterns] loop: the first pattern that matches
    anywhere decides. *)
Fixpoint first_match (ps : list (string * bool)) (text : string)
    : option string :=
  match ps with
  | [] => None
  | (lit, space_needed) :: ps' =>
      match re_search lit space_needed text with
      | Some g => Some g
      | None => first_match ps' text
      end
  end.

Definition stop_words : list string :=
  ["the"; "a"; "an"; "is"; "am"; "are"; "my"; "me"; "call"; "name"].

(** A whole word, as [\b(the|a|...)\b] sees it: dropped when it is a stop
    word in any case. *)
Definition flush_word (w : string) : string :=
  if bool_decide (lower_ascii w ∈ stop_words) then EmptyString else w.

(** [re.sub(r'\b(the|a|an|is|am|are|my|me|call|name)\b', '', s, flags=re.IGNORECASE)]:
    [cur] is the word being read. *)
Fixpoint drop_stop_words (cur s : string) : string :=
  match s with
  | EmptyString => flush_word cur
  | String c s' =>
      if is_word_char c then drop_stop_words (cur ++ String c EmptyString) s'
      else flush_word cur ++ String c (drop_stop_words EmptyString s')
  end.

(** [re.sub(r'[^\w\s]', '', s)] *)
Fixpoint drop_punctuation (s : string) : string :=
  match s with
  | EmptyString => EmptyString
  | String c s' =>
      if is_word_char c || is_space c then String c (drop_punctuation s')
      else drop_punctuation s'
  end.

(** [re.sub(r'\s+', ' ', s)]: [in_run] tells that the run of white space
    being read has been replaced already. *)
Fixpoint squeeze_spaces (in_run : bool) (s : string) : string :=
  match s with
  | EmptyString => EmptyString
  | String c s' =>
      if is_space c
      then if in_run then squeeze_spaces true s'
           else String " "%char (squeeze_spaces true s')
      else String c (squeeze_spaces false s')
  end.

(** [s[:n]] *)
Definition str_take (n : nat) (s : string) : string := String.substring 0 n s.

Definition extract_name_from_text (text : string) : string :=
  let text := strip_ascii text in
  match first_match patterns text with
  | Some g => strip_ascii g
  | None =>
      let cleaned := drop_stop_words EmptyString text in
      let cleaned := drop_punctuation cleaned in
      let cleaned := strip_ascii (squeeze_spaces false cleaned) in
      if String.eqb cleaned EmptyString || (50 <? String.length cleaned)%nat
      then strip_ascii (str_take 50 text)
      else cleaned
  end.

(** Every character of [s] satisfies [p]. *)
Fixpoint str_all (p : ascii -> bool) (s : string) : bool :=
  match s with
  | EmptyString => true
  | String c s' => p c && str_all p s'
  end.

(** The first and the last character of a string. *)
Definition str_head (s : string) : option ascii :=
  match s with
  | EmptyString => None
  | String c _ => Some c
  end.

Definition str_last (s : string) : option ascii := str_head (String.rev s).

(** [s] neither starts nor ends with white space. *)
Definition trimmed (s : string) : Prop := strip_ascii s = s.

(** A captured name: it starts and ends with a letter and holds letters and
    white space only. *)
Definition letter_or_space (c : ascii) : bool := is_letter c || is_space c.

Definition starts_with_letter (s : string) : bool :=
  match str_head s with
  | Some c => is_letter c
  | None => false
  end.

Definition name_like (s : string) : bool :=
  starts_with_letter s && starts_with_letter (String.rev s) &&
  str_all letter_or_space s.

(** * Properties *)

(** Closes a decidable goal on closed terms by evaluating its decision. *)
Ltac by_decide := apply (bool_decide_unpack _); vm_compute; exact I.

(** ** The model at work *)

Example ask_name_on_empty_state :
  ask_name ∅ =
    (Returned tt,
     {[ "step" := VStr "ask_name";
        "messages" := VList [Message "assistant" "Hi! What is your name?"] ]}).
Proof. vm_compute. reflexivity. Qed.

(** A first request, without an identifier, opens a conversation under the
    drawn one. *)
Example chat_opens_conversation :
  chat (H := demo_runtime) service_up (λ text, text) "fresh"
       {| name := None; salary := None; conversation_id := None;
          followup_question := None |} ∅ =
    (Reply (VList [Message "assistant" "Hi! What is your name?"])
           (Some (VStr "ask_name")) "fresh" false,
     {[ "fresh" := {[ "step" := VStr "ask_name";
          "messages" := VList [Message "assistant" "Hi! What is your name?"] ]} ]}).
Proof. vm_compute. reflexivity. Qed.

(** The match is on substrings, so a phrase inside a longer word ends the
    conversation as well. *)
Example recommend_contains_end :
  wants_to_end (lower_ascii "Which fund do you recommend?") = true.
Proof. reflexivity. Qed.

Example tax_saving_goes_on :
  wants_to_end (lower_ascii "what about tax saving?") = false.
Proof. reflexivity. Qed.

(** [give_advice] stopped by a missing salary leaves [step = "advice"]
    behind, and [chat] has no branch for that value. *)
Example advice_left_by_exception :
  give_advice (H := demo_runtime) service_up {[ "name" := VStr "Asha" ]} =
    (Raised (KeyError "salary"),
     {[ "name" := VStr "Asha"; "step" := VStr "advice";
        "messages" := VList []; "conversation_history" := VList [] ]}).
Proof. vm_compute. reflexivity. Qed.

Example chat_rejects_step_advice :
  chat (H := demo_runtime) service_up (λ text, text) "fresh"
       {| name := None; salary := None; conversation_id := Some "c1";
          followup_question := None |}
       {[ "c1" := {[ "step" := VStr "advice" ]} ]} =
    (HTTPException 400
       "Invalid conversation state. Please start a new conversation." None, ∅).
Proof. vm_compute. reflexivity. Qed.

(** ** A frame rule for the monad *)

Section Frame.
Context (R : relation State) `{!PreOrder R}.

Lemma preserves_ret {A} (a : A) : preserves R (ret a).
Proof. intros st. reflexivity. Qed.

Lemma preserves_raise {A} (e : exn) : preserves R (@raise A e).
Proof. intros st. reflexivity. Qed.

Lemma preserves_getitem key : preserves R (getitem key).
Proof. intros st. unfold getitem. destruct (st !! key); reflexivity. Qed.

Lemma preserves_get_default key dflt : preserves R (get_default key dflt).
Proof. intros st. reflexivity. Qed.

Lemma preserves_bind {A B} (m : Py A) (k : A -> Py B) :
  preserves R m -> (∀ a, preserves R (k a)) -> preserves R (bind m k).
Proof.
  intros Hm Hk st. unfold bind. specialize (Hm st).
  destruct (m st) as [[a|e] st']; simpl in *; [|done].
  by etrans; [|apply Hk].
Qed.

Lemma preserves_fmt_item `{PyRuntime} key : preserves R (fmt_item key).
Proof.
  apply preserves_bind; [apply preserves_getitem|].
  intros v. apply preserves_ret.
Qed.

Lemma preserves_lower_method `{PyRuntime} v : preserves R (lower_method v).
Proof. destruct v; apply preserves_ret || apply preserves_raise. Qed.

Lemma preserves_history_tail v : preserves R (history_tail v).
Proof.
  destruct v as [[|c q]|x|l]; apply preserves_ret || apply preserves_raise.
Qed.

Lemma preserves_append_method key : preserves R (append_method key).
Proof.
  apply preserves_bind; [apply preserves_getitem|].
  intros [q|x|l]; apply preserves_ret || apply preserves_raise.
Qed.

(** Appending: the argument is evaluated between the method lookup and the
    write, so the rule asks that it preserves [R] too. *)
Lemma preserves_append_to key r (c : Py string) :
  preserves R c ->
  (∀ v, preserves R (setitem key v)) ->
  preserves R (append_to key r c).
Proof.
  intros Hc Hset. unfold append_to.
  apply preserves_bind; [apply preserves_append_method|]. intros l.
  apply preserves_bind; [apply Hc|]. intros txt. apply Hset.
Qed.

End Frame.

Create HintDb frame discriminated.
#[export] Hint Resolve preserves_ret preserves_raise preserves_getitem
  preserves_get_default preserves_fmt_item preserves_lower_method
  preserves_history_tail preserves_append_method : frame.
#[export] Hint Extern 1 (PreOrder _) => typeclasses eauto : frame.

(** Walks a node function statement by statement; what is left are the
    writes, which each relation answers for itself. *)
Ltac frame_walk write :=
  repeat first
    [ solve [eauto with frame]
    | solve [write]
    | apply preserves_bind; [typeclasses eauto| |intros ?]
    | apply preserves_append_to; [typeclasses eauto| |intros ?]
    | match goal with
      | |- preserves _ (if ?b then _ else _) => destruct b
      end ].

(** ** [messages] only grows at its end *)

#[export] Instance msgs_mono_preorder : PreOrder msgs_mono.
Proof.
  split; [intros st; unfold msgs_mono; reflexivity|].
  intros a b c; unfold msgs_mono; apply transitivity.
Qed.

Lemma readonly_ret {A} (a : A) : readonly (ret a).
Proof. by intros st. Qed.

Lemma readonly_fmt_then `{PyRuntime} {A} key (k : string -> Py A) :
  (∀ n, readonly (k n)) -> readonly (bind (fmt_item key) k).
Proof.
  intros Hk st. unfold bind, fmt_item, bind, getitem.
  destruct (st !! key); simpl; [apply Hk|done].
Qed.

Lemma msgs_mono_setitem key v :
  key ≠ "messages" -> preserves msgs_mono (setitem key v).
Proof.
  intros Hk st. unfold msgs_mono, messages_of, list_at, setitem. simpl.
  by rewrite lookup_insert_ne.
Qed.

Lemma msgs_mono_setdefault key :
  preserves msgs_mono (setdefault key (VList [])).
Proof.
  intros st. unfold msgs_mono, messages_of, list_at, setdefault.
  destruct (st !! key) eqn:Hkey; simpl; [done|].
  destruct (decide (key = "messages")) as [->|Hne].
  - rewrite Hkey. apply prefix_nil.
  - by rewrite lookup_insert_ne.
Qed.

Lemma msgs_mono_append r (c : Py string) :
  readonly c -> preserves msgs_mono (append_to "messages" r c).
Proof.
  intros Hc st. unfold append_to, append_method, bind, getitem.
  destruct (st !! "messages") as [[q|x|l]|] eqn:Hm; simpl; try reflexivity.
  specialize (Hc st). destruct (c st) as [[txt|e] st']; simpl in *; subst st'.
  - unfold msgs_mono, messages_of, list_at. rewrite Hm, lookup_insert_eq.
    by apply prefix_app_r.
  - reflexivity.
Qed.

Lemma msgs_mono_node `{PyRuntime} model nd :
  preserves msgs_mono (node_function model nd).
Proof.
  destruct nd; simpl;
    [unfold ask_name|unfold ask_salary|unfold give_advice|unfold handle_followup];
    frame_walk
      ltac:(first
        [ apply msgs_mono_setdefault
        | apply msgs_mono_setitem; discriminate
        | apply msgs_mono_append;
          repeat first [apply readonly_ret | apply readonly_fmt_then; intros ?] ]).
Qed.

(** ** Keys no node function writes *)

#[export] Instance keeps_preorder key : PreOrder (keeps key).
Proof.
  split; [by intros st|]. intros a b c Hab Hbc. unfold keeps in *. congruence.
Qed.

Lemma keeps_setitem key key' v :
  key' ≠ key -> preserves (keeps key) (setitem key' v).
Proof. intros Hk st. unfold keeps, setitem. simpl. by rewrite lookup_insert_ne. Qed.

Lemma keeps_setdefault key key' v :
  key' ≠ key -> preserves (keeps key) (setdefault key' v).
Proof.
  intros Hk st. unfold keeps, setdefault.
  destruct (st !! key'); simpl; [done|]. by rewrite lookup_insert_ne.
Qed.

Lemma keeps_node `{PyRuntime} model nd key :
  key ∉ written_keys -> preserves (keeps key) (node_function model nd).
Proof.
  intros Hkey.
  assert (Hne : ∀ key', key' ∈ written_keys -> key' ≠ key) by (intros ? ? ->; done).
  destruct nd; simpl;
    [unfold ask_name|unfold ask_salary|unfold give_advice|unfold handle_followup];
    frame_walk
      ltac:((apply keeps_setitem || apply keeps_setdefault);
            apply Hne; by_decide).
Qed.

(** ** C4 *)

(** C4: for every state and every node function ([ask_name], [ask_salary],
    [give_advice], [handle_followup]), whether it returns or raises, the
    [messages] list it leaves has the list it found as a prefix; so its
    length is at least what it was. *)
Theorem messages_append_only `{PyRuntime} model nd st :
  let st' := (node_function model nd st).2 in
  messages_of st `prefix_of` messages_of st' ∧
  length (messages_of st) <= length (messages_of st').
Proof.
  intros st'. pose proof (msgs_mono_node model nd st) as Hp.
  split; [exact Hp|]. by apply prefix_length.
Qed.

(** ** C5 *)

(** C5: no node function assigns [name] or [salary]: whatever these keys
    hold (set or not) is what they hold afterwards, for each of the four
    functions and after any number of follow-up requests. *)
Theorem name_salary_unchanged `{PyRuntime} :
  (∀ model nd st,
     (node_function model nd st).2 !! "name" = st !! "name" ∧
     (node_function model nd st).2 !! "salary" = st !! "salary") ∧
  (∀ rounds st,
     followup_rounds rounds st !! "name" = st !! "name" ∧
     followup_rounds rounds st !! "salary" = st !! "salary").
Proof.
  assert (Hnode : ∀ model nd st,
     (node_function model nd st).2 !! "name" = st !! "name" ∧
     (node_function model nd st).2 !! "salary" = st !! "salary").
  { intros model nd st.
    split; apply (keeps_node model nd); by_decide. }
  split; [exact Hnode|].
  induction rounds as [|[model q] rounds IH]; intros st; [done|].
  simpl. destruct (IH (handle_followup model
                         (<["followup_question" := VStr q]> st)).2) as [Hn Hs].
  unfold followup_rounds in *. rewrite Hn, Hs.
  destruct (Hnode model Followup (<["followup_question" := VStr q]> st))
    as [Hn' Hs'].
  simpl in Hn', Hs'. rewrite Hn', Hs'. by rewrite !lookup_insert_ne.
Qed.

(** ** Running the node functions on a well-formed state *)

Lemma list_or_absent_cases key st :
  list_or_absent (st !! key) = true ->
  st !! key = Some (VList (list_at key st)) ∨
  (st !! key = None ∧ list_at key st = []).
Proof.
  unfold list_at. destruct (st !! key) as [[q|x|l]|]; simpl; try done; auto.
Qed.

(** Unfolds the monad down to lookups and inserts on the dictionary. *)
Ltac run_py :=
  unfold bind, setitem, setdefault, fmt_item, append_to, append_method,
    get_default, getitem, lower_method, history_tail, bind, ret, raise;
  simpl.

(** Two dictionaries built by inserts are equal when they agree at each key. *)
Ltac same_dict :=
  apply map_eq; intros ?key;
  repeat first
    [ rewrite lookup_insert
    | case_decide; subst; simplify_eq ];
  try done.

(** Runs a node function on a state whose lists are well-formed and
    compares the dictionary it leaves with the expected one, key by key. *)
Ltac run_node Hok :=
  let Hm := fresh "Hm" in
  let Hh := fresh "Hh" in
  repeat match goal with x := _ |- _ => subst x end;
  apply andb_prop in Hok as [Hm Hh];
  apply list_or_absent_cases in Hm as [Hm|[Hm ?]];
  apply list_or_absent_cases in Hh as [Hh|[Hh ?]];
  run_py; simplify_map_eq;
  repeat match goal with
         | Hq : default _ (?st !! ?k) = _ |- _ => rewrite Hq; clear Hq; run_py
         | Hw : wants_to_end _ = _ |- _ => rewrite Hw; clear Hw; run_py
         | |- context [py_format (VStr _)] => rewrite py_format_str
         end;
  simplify_map_eq;
  f_equal; same_dict;
  unfold messages_of, history_of in *;
  repeat match goal with
         | Hnil : list_at _ _ = [] |- _ => rewrite Hnil
         end;
  rewrite <- ?app_assoc; try done.

Lemma give_advice_run `{PyRuntime} model st vn vs :
  st !! "name" = Some vn ->
  st !! "salary" = Some vs ->
  lists_ok st = true ->
  let advice := ask_gemini model (advice_prompt (py_format vn) (py_format vs)) in
  give_advice model st =
    (Returned tt,
     <["step" := VStr "followup"]>
       (<["messages" := VList (messages_of st ++ [Message "assistant" advice])]>
          (<["conversation_history" :=
               VList (history_of st ++
                 [Message "system"
                    ("Initial advice given for " ++ py_format vn ++ " (salary: $"
                       ++ py_format vs ++ "): " ++ advice)])]>
             (<["initial_advice" := VStr advice]> st)))).
Proof.
  intros Hn Hs Hok advice. unfold give_advice. run_node Hok.
Qed.

Lemma handle_followup_farewell `{PyRuntime} model st vn q :
  st !! "name" = Some vn ->
  lists_ok st = true ->
  default (VStr "") (st !! "followup_question") = VStr q ->
  wants_to_end (str_lower q) = true ->
  handle_followup model st =
    (Returned tt,
     <["messages" :=
         VList (messages_of st ++ [Message "assistant" (farewell (py_format vn))])]>
       (<["conversation_history" := VList (history_of st)]>
          (<["step" := VStr "conversation_ended"]> st))).
Proof.
  intros Hn Hok Hq Hend. unfold handle_followup. run_node Hok.
Qed.

Lemma handle_followup_answer `{PyRuntime} model st vn vs q :
  st !! "name" = Some vn ->
  st !! "salary" = Some vs ->
  lists_ok st = true ->
  default (VStr "") (st !! "followup_question") = VStr q ->
  wants_to_end (str_lower q) = false ->
  let adv := default (VStr "N/A") (st !! "initial_advice") in
  let answer :=
    ask_gemini model
      (followup_context (py_format vn) (py_format vs) (py_format adv)
         (previous_context (last3 (history_of st))) q) in
  handle_followup model st =
    (Returned tt,
     <["messages" := VList (messages_of st ++ [Message "assistant" answer])]>
       (<["conversation_history" :=
            VList (history_of st ++
              [Message "user" ("Follow-up question: " ++ q);
               Message "assistant" ("Follow-up response: " ++ answer)])]>
          (<["step" := VStr "followup"]> st))).
Proof.
  intros Hn Hs Hok Hq Hend adv answer. unfold handle_followup. run_node Hok.
Qed.

(** Without a salary the follow-up prompt cannot be built: the [KeyError]
    leaves the dictionary as the first three statements made it. *)
Lemma handle_followup_no_salary `{PyRuntime} model st vn q :
  st !! "name" = Some vn ->
  st !! "salary" = None ->
  lists_ok st = true ->
  default (VStr "") (st !! "followup_question") = VStr q ->
  wants_to_end (str_lower q) = false ->
  handle_followup model st =
    (Raised (KeyError "salary"),
     <["conversation_history" := VList (history_of st)]>
       (<["messages" := VList (messages_of st)]>
          (<["step" := VStr "followup"]> st))).
Proof.
  intros Hn Hs Hok Hq Hend. unfold handle_followup. run_node Hok.
Qed.

(** ** Substrings *)

Lemma prefix_true_iff sub s :
  String.prefix sub s = true ↔ ∃ post, s = sub ++ post.
Proof.
  revert s. induction sub as [|c sub IH]; intros s; simpl.
  - split; [intros _; by exists s|by destruct s].
  - destruct s as [|d s]; simpl;
      [split; [done|intros [post Hp]; discriminate Hp]|].
    destruct (Ascii.ascii_dec c d) as [->|Hcd].
    + rewrite IH. split; intros [post Hp]; exists post.
      * by rewrite Hp.
      * simpl in Hp. by injection Hp.
    + split; [done|]. intros [post Hp]. simpl in Hp. by injection Hp.
Qed.

Lemma contains_spec sub s : contains sub s = true ↔ is_substring sub s.
Proof.
  induction s as [|d s IH]; cbn [contains];
    rewrite orb_true_iff, prefix_true_iff.
  - split.
    + intros [[post Hp]|?]; [|done]. by exists "", post.
    + intros [[|? ?] [post Hp]]; [left; by exists post|done].
  - rewrite IH. split.
    + intros [[post Hp]|(pre & post & Hp)].
      * by exists "", post.
      * exists (String d pre), post. simpl. by rewrite Hp.
    + intros ([|e pre] & post & Hp); simpl in Hp.
      * left. by exists post.
      * right. exists pre, post. by injection Hp.
Qed.

Lemma wants_to_end_spec lowered :
  wants_to_end lowered = true ↔ mentions_end_phrase lowered.
Proof.
  unfold wants_to_end, mentions_end_phrase. rewrite existsb_exists.
  split; intros (phrase & Hin & Hc); exists phrase.
  - by rewrite list_elem_of_In, <- contains_spec.
  - by rewrite <- list_elem_of_In, contains_spec.
Qed.

Lemma string_app_assoc (a b c : string) : (a ++ b) ++ c = a ++ (b ++ c).
Proof.
  induction a as [|ch a IH]; [done|].
  change (String ch ((a ++ b) ++ c) = String ch (a ++ (b ++ c))).
  by rewrite IH.
Qed.

Lemma app_cons c (a b : string) : String c a ++ b = String c (a ++ b).
Proof. reflexivity. Qed.

Lemma app_empty_r (a : string) : a ++ "" = a.
Proof. induction a as [|c a IH]; [done|]. by rewrite app_cons, IH. Qed.

Lemma is_substring_here x post : is_substring x (x ++ post).
Proof. by exists "", post. Qed.

Lemma is_substring_later x pre s : is_substring x s -> is_substring x (pre ++ s).
Proof.
  intros (p & q & ->). exists (pre ++ p), q. by rewrite string_app_assoc.
Qed.

Lemma is_substring_trans a b c :
  is_substring a b -> is_substring b c -> is_substring a c.
Proof.
  intros (p1 & q1 & ->) (p2 & q2 & ->). exists (p2 ++ p1), (q1 ++ q2).
  by rewrite !string_app_assoc.
Qed.

(** Every part of a joined text occurs in it. *)
Lemma join_contains sep part parts :
  part ∈ parts -> is_substring part (join sep parts).
Proof.
  induction parts as [|p [|p' rest] IH]; intros Hin.
  - by apply elem_of_nil in Hin.
  - apply list_elem_of_singleton in Hin as ->. exists "", "".
    by rewrite app_empty_r.
  - change (join sep (p :: p' :: rest)) with (p ++ sep ++ join sep (p' :: rest)).
    apply elem_of_cons in Hin as [->|Hin]; [apply is_substring_here|].
    by apply is_substring_later, is_substring_later, IH.
Qed.

(** Looks for [x] among the pieces a text is put together from. *)
Ltac find_piece :=
  repeat first [ apply is_substring_here | apply is_substring_later ].

(** ** The state [chat] hands to [handle_followup] *)

(** [state["followup_question"] = q] does not touch the other keys. *)
Lemma question_other_key (st : State) q key :
  key ≠ "followup_question" ->
  <["followup_question" := VStr q]> st !! key = st !! key.
Proof. intros Hk. by rewrite lookup_insert_ne. Qed.

Lemma question_lists_ok (st : State) q :
  lists_ok (<["followup_question" := VStr q]> st) = lists_ok st.
Proof. unfold lists_ok. by rewrite !question_other_key. Qed.

(** Reading a list back from under a chain of inserts. *)
Lemma list_at_insert_eq key l (st : State) :
  list_at key (<[key := VList l]> st) = l.
Proof. unfold list_at. by rewrite lookup_insert_eq. Qed.

Lemma list_at_insert_ne key key' v (st : State) :
  key' ≠ key -> list_at key (<[key' := v]> st) = list_at key st.
Proof. intros Hk. unfold list_at. by rewrite lookup_insert_ne. Qed.

(** Reads keys and lists back from under a chain of inserts. *)
Ltac read_dict :=
  unfold messages_of, history_of;
  repeat first
    [ rewrite lookup_insert_eq
    | rewrite lookup_insert_ne by done
    | rewrite list_at_insert_eq
    | rewrite list_at_insert_ne by done ].

(** ** C1 *)



(** ** C2 *)

(** C2: on a state that has a [name] and a [salary] (positive or not: the
    function does not look), [give_advice] returns with [step = "followup"]
    and not ["advice"], the completion stored under [initial_advice], one
    summarizing entry appended to [conversation_history] and the advice
    appended as one entry to [messages]. *)
Theorem give_advice_reaches_followup `{PyRuntime} model st n x :
  st !! "name" = Some (VStr n) ->
  st !! "salary" = Some (VFloat x) ->
  lists_ok st = true ->
  let r := give_advice model st in
  let advice := ask_gemini model (advice_prompt n (py_format (VFloat x))) in
  r.1 = Returned tt ∧
  r.2 !! "step" = Some (VStr "followup") ∧
  r.2 !! "step" ≠ Some (VStr "advice") ∧
  r.2 !! "initial_advice" = Some (VStr advice) ∧
  history_of r.2 =
    (history_of st ++
       [Message "system"
          ("Initial advice given for " ++ n ++ " (salary: $"
             ++ py_format (VFloat x) ++ "): " ++ advice)])%list ∧
  messages_of r.2 = (messages_of st ++ [Message "assistant" advice])%list.
Proof.
  intros Hn Hs Hok r advice. subst r advice.
  rewrite (give_advice_run model st (VStr n) (VFloat x)) by done.
  cbn [fst snd]. rewrite py_format_str. read_dict. by repeat split.
Qed.

Lemma give_advice_reaches_followup_witness :
  (give_advice (H := demo_runtime) service_up asha_salaried).2 !! "step"
  = Some (VStr "followup").
Proof.
  apply (@give_advice_reaches_followup demo_runtime service_up asha_salaried
           "Asha" 50000%float); reflexivity.
Defined.

(** ** C3 *)

(** C3: whatever the service does on other prompts, when it raises on the
    prompt it is asked, [ask_gemini] answers with the fixed fallback text,
    written out here, which is not empty.  A failure never leaves
    [give_advice] or [handle_followup]: on a state with [name] and [salary]
    they return for every service, and when the service raises on the prompt
    they build, the advice stored and the text appended to [messages] are
    the fallback; on the ending branch the text appended is the farewell,
    not empty either. *)
Theorem service_failure_absorbed `{PyRuntime} model :
  (∀ prompt, model prompt = None -> ask_gemini model prompt = fallback) ∧
  fallback = "I apologize, but I'm having trouble generating personalized advice right now. Here's some general financial guidance: Consider creating a budget, building an emergency fund with 3-6 months of expenses, and investing in your retirement. Please try again later for personalized advice." ∧
  fallback ≠ "" ∧
  (∀ st vn vs,
     st !! "name" = Some vn -> st !! "salary" = Some vs -> lists_ok st = true ->
     let r := give_advice model st in
     r.1 = Returned tt ∧
     (model (advice_prompt (py_format vn) (py_format vs)) = None ->
      r.2 !! "initial_advice" = Some (VStr fallback) ∧
      messages_of r.2 = (messages_of st ++ [Message "assistant" fallback])%list)) ∧
  (∀ st vn vs q,
     st !! "name" = Some vn -> st !! "salary" = Some vs -> lists_ok st = true ->
     default (VStr "") (st !! "followup_question") = VStr q ->
     let r := handle_followup model st in
     r.1 = Returned tt ∧
     (∃ text, text ≠ "" ∧
        (wants_to_end (str_lower q) = true ->
         messages_of r.2 = (messages_of st ++ [Message "assistant" text])%list)) ∧
     (wants_to_end (str_lower q) = false ->
      model
        (followup_context (py_format vn) (py_format vs)
           (py_format (default (VStr "N/A") (st !! "initial_advice")))
           (previous_context (last3 (history_of st))) q) = None ->
      messages_of r.2 = (messages_of st ++ [Message "assistant" fallback])%list ∧
      history_of r.2 =
        (history_of st ++
           [Message "user" ("Follow-up question: " ++ q);
            Message "assistant" ("Follow-up response: " ++ fallback)])%list)).
Proof.
  assert (Hask : ∀ prompt, model prompt = None -> ask_gemini model prompt = fallback).
  { intros prompt Hdown. unfold ask_gemini. by rewrite Hdown. }
  split; [exact Hask|]. split; [reflexivity|]. split; [done|]. split.
  - intros st vn vs Hn Hs Hok r. subst r.
    rewrite (give_advice_run model st vn vs) by done.
    cbn [fst snd]. split; [done|]. intros Hdown.
    rewrite !(Hask _ Hdown). by read_dict.
  - intros st vn vs q Hn Hs Hok Hq r. subst r.
    destruct (wants_to_end (str_lower q)) eqn:Hend.
    + rewrite (handle_followup_farewell model st vn q) by done.
      cbn [fst snd]. split; [done|]. split; [|done].
      exists (farewell (py_format vn)). split; [done|]. intros _. by read_dict.
    + rewrite (handle_followup_answer model st vn vs q) by done.
      cbn [fst snd]. split; [done|]. split.
      * exists fallback. split; done.
      * intros _ Hdown. rewrite !(Hask _ Hdown). by read_dict.
Qed.

Lemma service_failure_absorbed_witness :
  service_down "any prompt" = None ∧
  ask_gemini (H := demo_runtime) service_down "any prompt" = fallback.
Proof.
  split; [reflexivity|].
  apply (proj1 (@service_failure_absorbed demo_runtime service_down)).
  reflexivity.
Defined.

(** ** C6 *)

Lemma last3_length {A} (l : list A) : length (last3 l) = min 3 (length l).
Proof. unfold last3. rewrite length_drop. lia. Qed.

Lemma last3_suffix {A} (l : list A) : last3 l `suffix_of` l.
Proof. apply suffix_drop. Qed.

Lemma handle_followup_answers `{PyRuntime} model st vn vs q :
  st !! "name" = Some vn ->
  st !! "salary" = Some vs ->
  lists_ok st = true ->
  default (VStr "") (st !! "followup_question") = VStr q ->
  wants_to_end (str_lower q) = false ->
  let r := handle_followup model st in
  answers_question model st r.2 r.1 (py_format vn) (py_format vs)
    (py_format (default (VStr "N/A") (st !! "initial_advice"))) q.
Proof.
  intros Hn Hs Hok Hq Hend r. subst r. unfold answers_question.
  rewrite (handle_followup_answer model st vn vs q) by done.
  cbn [fst snd]. by read_dict.
Qed.

(** C6: on a state with [name], [salary] and [initial_advice] set, a question
    that matches no termination phrase is answered: [step] stays
    ["followup"], [conversation_history] gets two entries (the question, then
    the answer), [messages] gets one, the answer to the prompt written out
    here.  That prompt holds the name, the salary, the initial advice, the
    question and a line for each of the last three history entries (all of
    them when there are fewer), and nothing else of the state.  The question
    "what about tax saving?" is such a question. *)
Theorem followup_answers_question `{PyRuntime} model st n x adv :
  st !! "name" = Some (VStr n) ->
  st !! "salary" = Some (VFloat x) ->
  st !! "initial_advice" = Some (VStr adv) ->
  lists_ok st = true ->
  let ask q := handle_followup model (<["followup_question" := VStr q]> st) in
  let recent := last3 (history_of st) in
  let prompt q :=
    "You are a friendly and knowledgeable Indian financial advisor. Here's the context:" ++ nl
    ++ "- User's name: " ++ n ++ nl
    ++ "- Monthly salary: " ++ py_format (VFloat x) ++ " INR" ++ nl
    ++ "- Initial advice given: " ++ adv ++ nl ++ nl
    ++ "Previous conversation:" ++ nl
    ++ join nl (map (λ item, "- " ++ content item) recent) ++ nl ++ nl
    ++ "The user is asking a follow-up question: " ++ dquote ++ q ++ dquote ++ nl ++ nl
    ++ "Provide a helpful, detailed answer that builds on the previous advice. Keep it friendly and practical. "
    ++ "If the question is unclear, ask for clarification. End by asking if they have any other questions." in
  (∀ q, wants_to_end (str_lower q) = false ->
        answers_question model st (ask q).2 (ask q).1
          n (py_format (VFloat x)) adv q ∧
        length (history_of (ask q).2) = length (history_of st) + 2 ∧
        length (messages_of (ask q).2) = length (messages_of st) + 1 ∧
        messages_of (ask q).2 =
          (messages_of st ++
             [Message "assistant" (ask_gemini model (prompt q))])%list ∧
        history_of (ask q).2 =
          (history_of st ++
             [Message "user" ("Follow-up question: " ++ q);
              Message "assistant"
                ("Follow-up response: " ++ ask_gemini model (prompt q))])%list) ∧
  answers_question model st (ask "what about tax saving?").2
    (ask "what about tax saving?").1 n (py_format (VFloat x)) adv
    "what about tax saving?" ∧
  length recent = min 3 (length (history_of st)) ∧
  recent `suffix_of` history_of st ∧
  (∀ q, is_substring n (prompt q) ∧
        is_substring (py_format (VFloat x)) (prompt q) ∧
        is_substring adv (prompt q) ∧
        is_substring q (prompt q) ∧
        ∀ item, item ∈ recent -> is_substring ("- " ++ content item) (prompt q)).
Proof.
  intros Hn Hs Ha Hok ask recent prompt.
  assert (Hprompt : ∀ q,
            followup_context n (py_format (VFloat x)) adv
              (previous_context recent) q = prompt q) by reflexivity.
  assert (Hq : ∀ q, wants_to_end (str_lower q) = false ->
            answers_question model st (ask q).2 (ask q).1
              n (py_format (VFloat x)) adv q).
  { intros q Hend.
    pose proof (handle_followup_answers model
                  (<["followup_question" := VStr q]> st) (VStr n) (VFloat x) q)
      as Hrun.
    rewrite question_lists_ok in Hrun. unfold answers_question in *.
    revert Hrun. read_dict.
    rewrite Ha. cbn [from_option]. unfold id. rewrite !py_format_str.
    intros Hrun. by apply Hrun. }
  split; [|split; [|split; [|split]]].
  - intros q Hend. specialize (Hq q Hend). split; [exact Hq|].
    destruct Hq as (_ & _ & Hhist & Hmsgs).
    fold recent in Hhist, Hmsgs. rewrite Hprompt in Hhist, Hmsgs.
    rewrite Hhist, Hmsgs, !length_app. done.
  - apply Hq. by rewrite str_lower_ascii.
  - apply last3_length.
  - apply last3_suffix.
  - intros q. subst prompt. cbv beta.
    split; [find_piece|]. split; [find_piece|]. split; [find_piece|].
    split; [find_piece|]. intros item Hitem.
    apply (is_substring_trans _
             (join nl (map (λ item, "- " ++ content item) recent)));
      [|find_piece].
    apply join_contains, list_elem_of_fmap. by exists item.
Qed.

Lemma followup_answers_question_witness :
  answers_question (H := demo_runtime) service_up asha_advised
    (handle_followup (H := demo_runtime) service_up
       (<["followup_question" := VStr "what about tax saving?"]> asha_advised)).2
    (handle_followup (H := demo_runtime) service_up
       (<["followup_question" := VStr "what about tax saving?"]> asha_advised)).1
    "Asha" "50000.0" "Save more." "what about tax saving?".
Proof.
  edestruct (@followup_answers_question demo_runtime service_up asha_advised
               "Asha" 50000%float "Save more.") as (_ & W & _);
    [reflexivity..|exact W].
Defined.

(** ** C10 *)

(** C10: when the state has no [followup_question], [handle_followup] does
    not raise: the question is the empty string, which holds no termination
    phrase, the service is asked with an empty question, two history entries
    and one message are appended and [step] is ["followup"]. *)
Theorem followup_without_question `{PyRuntime} model st vn vs :
  st !! "followup_question" = None ->
  st !! "name" = Some vn ->
  st !! "salary" = Some vs ->
  lists_ok st = true ->
  let r := handle_followup model st in
  wants_to_end (str_lower "") = false ∧
  answers_question model st r.2 r.1 (py_format vn) (py_format vs)
    (py_format (default (VStr "N/A") (st !! "initial_advice"))) "" ∧
  length (history_of r.2) = length (history_of st) + 2 ∧
  length (messages_of r.2) = length (messages_of st) + 1.
Proof.
  intros Hq Hn Hs Hok r.
  assert (Hlow : wants_to_end (str_lower "") = false)
    by by rewrite str_lower_ascii.
  assert (Hrun := handle_followup_answers model st vn vs "" Hn Hs Hok).
  rewrite Hq in Hrun. specialize (Hrun eq_refl Hlow). fold r in Hrun.
  split; [done|]. split; [exact Hrun|].
  destruct Hrun as (_ & _ & -> & ->). by rewrite !length_app.
Qed.

Lemma followup_without_question_witness :
  length (messages_of
            (handle_followup (H := demo_runtime) service_down asha_salaried).2)
  = length (messages_of asha_salaried) + 1.
Proof.
  apply (@followup_without_question demo_runtime service_down asha_salaried
           (VStr "Asha") (VFloat 50000)); reflexivity.
Defined.

(** ** C9 *)

#[export] Instance stays_settled_preorder : PreOrder stays_settled.
Proof.
  split; [intros st Hst; exact Hst|].
  intros a b c Hab Hbc Ha. apply Hbc, Hab, Ha.
Qed.




Lemma bind_setitem {B} key v (k : unit -> Py B) st :
  bind (setitem key v) k st = k tt (<[key := v]> st).
Proof. reflexivity. Qed.



(** ** C7 *)

Lemma agree_lookup st1 st2 key :
  agree st1 st2 -> key ∈ state_fields -> st1 !! key = st2 !! key.
Proof. unfold agree. rewrite Forall_forall. auto. Qed.

Lemma agree_insert st1 st2 key v :
  agree st1 st2 -> agree (<[key := v]> st1) (<[key := v]> st2).
Proof.
  unfold agree. rewrite !Forall_forall. intros Hag k Hk.
  rewrite !lookup_insert. case_decide; auto.
Qed.

Lemma respects_ret {A} (a : A) : respects (ret a).
Proof. by intros st1 st2 Hag. Qed.

Lemma respects_raise {A} e : respects (@raise A e).
Proof. by intros st1 st2 Hag. Qed.

Lemma respects_bind {A B} (m : Py A) (k : A -> Py B) :
  respects m -> (∀ a, respects (k a)) -> respects (bind m k).
Proof.
  intros Hm Hk st1 st2 Hag. unfold bind.
  destruct (Hm st1 st2 Hag) as [Hout Hag'].
  destruct (m st1) as [[a1|e1] st1'], (m st2) as [[a2|e2] st2'];
    simpl in *; simplify_eq; [by apply Hk|done].
Qed.

Lemma respects_setitem key v : respects (setitem key v).
Proof. intros st1 st2 Hag. split; [done|]. by apply agree_insert. Qed.

Lemma respects_setdefault key v :
  key ∈ state_fields -> respects (setdefault key v).
Proof.
  intros Hk st1 st2 Hag. unfold setdefault.
  rewrite (agree_lookup st1 st2 key Hag Hk).
  destruct (st2 !! key); simpl; [done|]. split; [done|]. by apply agree_insert.
Qed.

Lemma respects_getitem key : key ∈ state_fields -> respects (getitem key).
Proof.
  intros Hk st1 st2 Hag. unfold getitem.
  rewrite (agree_lookup st1 st2 key Hag Hk). by destruct (st2 !! key).
Qed.

Lemma respects_get_default key dflt :
  key ∈ state_fields -> respects (get_default key dflt).
Proof.
  intros Hk st1 st2 Hag. unfold get_default.
  by rewrite (agree_lookup st1 st2 key Hag Hk).
Qed.

Ltac respects_walk :=
  unfold append_to, append_method, fmt_item, lower_method, history_tail;
  repeat first
    [ apply respects_ret
    | apply respects_raise
    | apply respects_setitem
    | apply respects_setdefault; by_decide
    | apply respects_getitem; by_decide
    | apply respects_get_default; by_decide
    | apply respects_bind; [|intros ?]
    | match goal with
      | |- respects (if ?b then _ else _) => destruct b
      | |- respects (match ?v with _ => _ end) => destruct v
      end ].

Lemma respects_node `{PyRuntime} model nd : respects (node_function model nd).
Proof.
  destruct nd; simpl;
    [unfold ask_name|unfold ask_salary|unfold give_advice|unfold handle_followup];
    respects_walk.
Qed.

(** C7: a node function reads the dictionary through the seven state keys
    only.  Run on two dictionaries that agree on those keys (as a restored
    copy and the original do) with the same service, it has the same outcome
    (returns, or raises the same exception) and leaves two dictionaries that
    agree on those keys again; any other key is left as it was.  So does a
    whole run of follow-up requests. *)
Theorem restored_state_resumes_alike `{PyRuntime} :
  (∀ model nd st1 st2,
     agree st1 st2 ->
     (node_function model nd st1).1 = (node_function model nd st2).1 ∧
     agree (node_function model nd st1).2 (node_function model nd st2).2) ∧
  (∀ model nd st key,
     key ∉ state_fields -> (node_function model nd st).2 !! key = st !! key) ∧
  (∀ rounds st1 st2,
     agree st1 st2 -> agree (followup_rounds rounds st1) (followup_rounds rounds st2)).
Proof.
  split; [|split].
  - intros model nd. apply respects_node.
  - intros model nd st key Hkey. apply (keeps_node model nd).
    intros Hin. apply Hkey. revert Hin. unfold written_keys, state_fields.
    rewrite !elem_of_cons. tauto.
  - induction rounds as [|[model q] rounds IH]; intros st1 st2 Hag; [done|].
    simpl. apply IH.
    apply (respects_node model Followup). by apply agree_insert.
Qed.

Lemma restored_state_resumes_alike_witness :
  agree asha_annotated asha_salaried ∧
  agree (give_advice (H := demo_runtime) service_up asha_annotated).2
        (give_advice (H := demo_runtime) service_up asha_salaried).2.
Proof.
  assert (Hag : agree asha_annotated asha_salaried) by (repeat constructor).
  split; [exact Hag|].
  apply (proj1 (@restored_state_resumes_alike demo_runtime)
           service_up Advice asha_annotated asha_salaried Hag).
Defined.

(** ** C8 *)

(** C8: when the conversation named in the request has a stored state that
    is not empty and whose [step] is none of the five known values (or is
    missing), [chat] runs no node function and keeps nothing of the state:
    it removes the conversation from the store, leaves the rest of the store
    alone and raises the 400 error that asks for a new conversation,
    whatever the service, the request fields and the stored state are. *)
Theorem chat_rejects_unknown_step `{PyRuntime} model extract uuid4
    user_input cid (store : Store) st :
  conversation_id user_input = Some cid ->
  cid ≠ "" ->
  store !! cid = Some st ->
  falsy st = false ->
  has_known_step st = false ->
  chat model extract uuid4 user_input store =
    (HTTPException 400
       "Invalid conversation state. Please start a new conversation." None,
     delete cid store).
Proof.
  intros Hid Hne Hst Hfalsy Hstep. unfold chat. rewrite Hid.
  destruct cid as [|c rest]; [done|]. rewrite Hst. cbn [default from_option id].
  unfold id. rewrite Hfalsy.
  unfold has_known_step, known_steps in Hstep. cbn [existsb] in Hstep.
  repeat (apply orb_false_elim in Hstep as [? Hstep]).
  by repeat match goal with Hs : eq_str _ _ = false |- _ => rewrite Hs; clear Hs end.
Qed.

Lemma chat_rejects_unknown_step_witness :
  chat (H := demo_runtime) service_up (λ text, text) "fresh" demo_request
       demo_store =
    (HTTPException 400
       "Invalid conversation state. Please start a new conversation." None,
     delete "c1" demo_store).
Proof.
  apply (@chat_rejects_unknown_step demo_runtime service_up (λ text, text)
           "fresh" demo_request "c1" demo_store paused_state);
    first [reflexivity | discriminate].
Defined.

(** * Further properties of the node functions *)

(** ** What each function does and when it fails *)

(** Runs a function that only appends to [messages]. *)
Ltac run_messages :=
  repeat (progress (run_py; simplify_map_eq));
  f_equal; same_dict;
  unfold messages_of in *;
  repeat match goal with
         | Hnil : list_at _ _ = [] |- _ => rewrite Hnil
         end;
  try done.

Lemma ask_name_run `{PyRuntime} st :
  list_or_absent (st !! "messages") = true ->
  ask_name st =
    (Returned tt,
     <["messages" := VList (messages_of st ++ [greeting])]>
       (<["step" := VStr "ask_name"]> st)).
Proof.
  intros Hm. apply list_or_absent_cases in Hm as [Hm|[Hm Hm']];
    unfold ask_name; run_messages.
Qed.

Lemma ask_salary_run `{PyRuntime} st vn :
  st !! "name" = Some vn ->
  list_or_absent (st !! "messages") = true ->
  ask_salary st =
    (Returned tt,
     <["messages" := VList (messages_of st ++ [salary_request (py_format vn)])]>
       (<["step" := VStr "ask_salary"]> st)).
Proof.
  intros Hn Hm. apply list_or_absent_cases in Hm as [Hm|[Hm Hm']];
    unfold ask_salary; run_messages.
Qed.

(** Runs a node function on a state whose lists are well-formed, up to the
    point where it stops. *)
Ltac run_lists Hok :=
  let Hm := fresh "Hm" in
  let Hh := fresh "Hh" in
  apply andb_prop in Hok as [Hm Hh];
  apply list_or_absent_cases in Hm as [Hm|[Hm ?]];
  apply list_or_absent_cases in Hh as [Hh|[Hh ?]];
  repeat (progress (run_py; simplify_map_eq));
  repeat match goal with
         | Hq : default _ (?st !! ?k) = _ |- _ => rewrite Hq; clear Hq; run_py
         | Hw : wants_to_end _ = _ |- _ => rewrite Hw; clear Hw; run_py
         end;
  repeat (progress (run_py; simplify_map_eq));
  f_equal; same_dict;
  unfold messages_of, history_of in *;
  repeat match goal with
         | Hnil : list_at _ _ = [] |- _ => rewrite Hnil
         end;
  try done.

Lemma ask_salary_no_name `{PyRuntime} st :
  st !! "name" = None ->
  list_or_absent (st !! "messages") = true ->
  ask_salary st =
    (Raised (KeyError "name"),
     <["messages" := VList (messages_of st)]> (<["step" := VStr "ask_salary"]> st)).
Proof.
  intros Hn Hm. apply list_or_absent_cases in Hm as [Hm|[Hm Hm']];
    unfold ask_salary; run_messages.
Qed.

Lemma give_advice_no_name `{PyRuntime} model st :
  st !! "name" = None ->
  lists_ok st = true ->
  give_advice model st =
    (Raised (KeyError "name"),
     <["conversation_history" := VList (history_of st)]>
       (<["messages" := VList (messages_of st)]>
          (<["step" := VStr "advice"]> st))).
Proof. intros Hn Hok. unfold give_advice. run_lists Hok. Qed.

Lemma give_advice_no_salary `{PyRuntime} model st vn :
  st !! "name" = Some vn ->
  st !! "salary" = None ->
  lists_ok st = true ->
  give_advice model st =
    (Raised (KeyError "salary"),
     <["conversation_history" := VList (history_of st)]>
       (<["messages" := VList (messages_of st)]>
          (<["step" := VStr "advice"]> st))).
Proof. intros Hn Hs Hok. unfold give_advice. run_lists Hok. Qed.

Lemma handle_followup_farewell_no_name `{PyRuntime} model st q :
  st !! "name" = None ->
  lists_ok st = true ->
  default (VStr "") (st !! "followup_question") = VStr q ->
  wants_to_end (str_lower q) = true ->
  handle_followup model st =
    (Raised (KeyError "name"),
     <["conversation_history" := VList (history_of st)]>
       (<["messages" := VList (messages_of st)]>
          (<["step" := VStr "conversation_ended"]> st))).
Proof. intros Hn Hok Hq Hend. unfold handle_followup. run_lists Hok. Qed.

Lemma handle_followup_no_name `{PyRuntime} model st q :
  st !! "name" = None ->
  lists_ok st = true ->
  default (VStr "") (st !! "followup_question") = VStr q ->
  wants_to_end (str_lower q) = false ->
  handle_followup model st =
    (Raised (KeyError "name"),
     <["conversation_history" := VList (history_of st)]>
       (<["messages" := VList (messages_of st)]>
          (<["step" := VStr "followup"]> st))).
Proof. intros Hn Hok Hq Hend. unfold handle_followup. run_lists Hok. Qed.

Lemma question_ok_read st :
  question_ok st = true ->
  ∃ q, default (VStr "") (st !! "followup_question") = VStr q.
Proof.
  unfold question_ok. destruct (st !! "followup_question") as [[q|x|l]|];
    try done; simpl; eauto.
Qed.

Lemma lists_ok_messages st :
  lists_ok st = true -> list_or_absent (st !! "messages") = true.
Proof. unfold lists_ok. by intros [? ?]%andb_prop. Qed.

(** The ways a node function can run on a state with well-formed lists and
    question: the dictionary it leaves is the one it found with [step]
    overwritten, the two lists created where missing and, when it returns,
    extended. *)
Lemma node_run_cases `{PyRuntime} model nd st :
  lists_ok st = true ->
  question_ok st = true ->
  let r := node_function model nd st in
  (r.1 = Returned tt ∧ lands_in (step_after nd) st r ∧
   (nd = AskName ∨ is_Some (st !! "name")) ∧
   (nd = AskName ∨ nd = AskSalary ∨ r.2 !! "step" = Some (VStr "conversation_ended")
    ∨ is_Some (st !! "salary")))
  ∨
  (missing_key st r.1 ∧ lands_in (step_on_failure nd) st r ∧
   messages_of r.2 = messages_of st ∧ history_of r.2 = history_of st ∧
   r.2 !! "initial_advice" = st !! "initial_advice").
Proof.
  intros Hok Hqok r. subst r.
  destruct (question_ok_read st Hqok) as [q Hq].
  pose proof (lists_ok_messages st Hok) as Hm.
  destruct (st !! "name") as [vn|] eqn:Hn, (st !! "salary") as [vs|] eqn:Hs,
    nd; simpl.
  all: try (destruct (wants_to_end (str_lower q)) eqn:Hend).
  all: first
    [ rewrite (ask_name_run st Hm)
    | rewrite (ask_salary_run st vn Hn Hm)
    | rewrite (ask_salary_no_name st Hn Hm)
    | rewrite (give_advice_run model st vn vs Hn Hs Hok)
    | rewrite (give_advice_no_name model st Hn Hok)
    | rewrite (give_advice_no_salary model st vn Hn Hs Hok)
    | rewrite (handle_followup_farewell model st vn q Hn Hok Hq Hend)
    | rewrite (handle_followup_farewell_no_name model st q Hn Hok Hq Hend)
    | rewrite (handle_followup_answer model st vn vs q Hn Hs Hok Hq Hend)
    | rewrite (handle_followup_no_salary model st vn q Hn Hs Hok Hq Hend)
    | rewrite (handle_followup_no_name model st q Hn Hok Hq Hend) ].
  all: cbn [fst snd]; unfold lands_in, missing_key; cbn [fst snd]; read_dict.
  all: first
    [ left; split; [done|]; split;
      [eexists; split; [|done]; by_decide|]; naive_solver
    | right; split;
      [eexists; split; [done|]; naive_solver|]; split;
      [eexists; split; [|done]; by_decide|]; done ].
Qed.

(** ** [conversation_history] only grows at its end *)

#[export] Instance list_mono_preorder key : PreOrder (list_mono key).
Proof.
  split; [intros st; unfold list_mono; reflexivity|].
  intros a b c; unfold list_mono; apply transitivity.
Qed.

Lemma list_mono_setitem key key' v :
  key' ≠ key -> preserves (list_mono key) (setitem key' v).
Proof.
  intros Hk st. unfold list_mono, list_at, setitem. simpl.
  by rewrite lookup_insert_ne.
Qed.

Lemma list_mono_setdefault key key' :
  preserves (list_mono key) (setdefault key' (VList [])).
Proof.
  intros st. unfold list_mono, list_at, setdefault.
  destruct (st !! key') eqn:Hkey; simpl; [done|].
  destruct (decide (key' = key)) as [->|Hne].
  - rewrite Hkey. apply prefix_nil.
  - by rewrite lookup_insert_ne.
Qed.

Lemma list_mono_append key r (c : Py string) :
  readonly c -> preserves (list_mono key) (append_to key r c).
Proof.
  intros Hc st. unfold append_to, append_method, bind, getitem.
  destruct (st !! key) as [[q|x|l]|] eqn:Hm; simpl; try reflexivity.
  specialize (Hc st). destruct (c st) as [[txt|e] st']; simpl in *; subst st'.
  - unfold list_mono, list_at. rewrite Hm, lookup_insert_eq.
    by apply prefix_app_r.
  - reflexivity.
Qed.

(** ** X1 to X6: the node functions *)

(** X1: on a state with well-formed lists and question, a node function
    either returns or raises [KeyError] for [name] or [salary], and only for
    a key the state does not have; with both keys present it returns, and
    apart from [ask_name] it cannot return without a [name]. *)
Theorem node_fails_only_on_missing_key `{PyRuntime} model nd st :
  lists_ok st = true ->
  question_ok st = true ->
  let r := node_function model nd st in
  (r.1 = Returned tt ∨ missing_key st r.1) ∧
  (is_Some (st !! "name") -> is_Some (st !! "salary") -> r.1 = Returned tt) ∧
  (r.1 = Returned tt -> nd ≠ AskName -> is_Some (st !! "name")).
Proof.
  intros Hok Hqok r. subst r.
  destruct (node_run_cases model nd st Hok Hqok)
    as [(Hret & _ & Hname & _)|((key & Hout & Hnone & Hkey) & _)].
  - split; [by left|]. split; [done|]. intros _ Hnd. by destruct Hname.
  - split; [right; by exists key|]. split.
    + intros [vn Hn] [vs Hs]. destruct Hkey as [-> | ->]; congruence.
    + rewrite Hout. done.
Qed.

Lemma node_fails_only_on_missing_key_witness :
  missing_key asha_named (give_advice (H := demo_runtime) service_up asha_named).1.
Proof.
  destruct (@node_fails_only_on_missing_key demo_runtime service_up Advice
              asha_named eq_refl eq_refl) as [[Hret|Hmiss] _];
    [discriminate Hret|exact Hmiss].
Defined.

(** X2: when a node function returns, [step] is the value that function
    ends on: [ask_name], [ask_salary], [followup] for [give_advice] (never
    [advice]), [followup] or [conversation_ended] for [handle_followup]. *)
Theorem returned_node_sets_step `{PyRuntime} model nd st :
  lists_ok st = true ->
  question_ok st = true ->
  let r := node_function model nd st in
  r.1 = Returned tt ->
  ∃ s, s ∈ step_after nd ∧ r.2 !! "step" = Some (VStr s).
Proof.
  intros Hok Hqok r Hret. subst r.
  destruct (node_run_cases model nd st Hok Hqok)
    as [(_ & Hstep & _)|((key & Hout & _) & _)]; [done|].
  congruence.
Qed.

Lemma returned_node_sets_step_witness :
  ∃ s, s ∈ step_after AskSalary ∧
       (ask_salary (H := demo_runtime) asha_named).2 !! "step" = Some (VStr s).
Proof.
  apply (@returned_node_sets_step demo_runtime service_up AskSalary asha_named);
    reflexivity.
Defined.

(** X3: when a node function raises, it has already overwritten [step]
    ([advice] in the case of [give_advice]) but has appended nothing:
    [messages], [conversation_history] and [initial_advice] are as they
    were. *)
Theorem failed_node_appends_nothing `{PyRuntime} model nd st e :
  lists_ok st = true ->
  question_ok st = true ->
  let r := node_function model nd st in
  r.1 = Raised e ->
  (∃ s, s ∈ step_on_failure nd ∧ r.2 !! "step" = Some (VStr s)) ∧
  messages_of r.2 = messages_of st ∧
  history_of r.2 = history_of st ∧
  r.2 !! "initial_advice" = st !! "initial_advice".
Proof.
  intros Hok Hqok r Hraised. subst r.
  destruct (node_run_cases model nd st Hok Hqok)
    as [(Hret & _)|(_ & Hstep & Hrest)]; [congruence|done].
Qed.

Lemma failed_node_appends_nothing_witness :
  (give_advice (H := demo_runtime) service_up asha_named).2 !! "initial_advice"
  = asha_named !! "initial_advice".
Proof.
  apply (@failed_node_appends_nothing demo_runtime service_up Advice asha_named
           (KeyError "salary")); reflexivity.
Defined.

(** X4: for every state and every node function, returning or raising,
    the [conversation_history] it leaves has the one it found as a prefix. *)
Theorem history_append_only `{PyRuntime} model nd st :
  let st' := (node_function model nd st).2 in
  history_of st `prefix_of` history_of st' ∧
  length (history_of st) <= length (history_of st').
Proof.
  intros st'.
  assert (Hp : preserves (list_mono "conversation_history") (node_function model nd)).
  { destruct nd; simpl;
      [unfold ask_name|unfold ask_salary|unfold give_advice|unfold handle_followup];
      frame_walk
        ltac:(first
          [ apply list_mono_setdefault
          | apply list_mono_setitem; discriminate
          | apply list_mono_append;
            repeat first [apply readonly_ret | apply readonly_fmt_then; intros ?] ]). }
  split; [exact (Hp st)|]. apply prefix_length, (Hp st).
Qed.

(** ** Rounds of follow-up questions *)

Lemma followup_rounds_cons `{PyRuntime} model q rounds st :
  followup_rounds ((model, q) :: rounds) st =
  followup_rounds rounds
    (handle_followup model (<["followup_question" := VStr q]> st)).2.
Proof. reflexivity. Qed.

(** X5: on a state with [name], [salary] and well-formed lists, a run of
    follow-up requests none of which contains a termination phrase appends
    one message and two history entries per request, keeps the earlier
    messages and leaves [step] at [followup]. *)
Theorem followup_rounds_grow `{PyRuntime} rounds st :
  is_Some (st !! "name") ->
  is_Some (st !! "salary") ->
  lists_ok st = true ->
  Forall (λ round, wants_to_end (str_lower round.2) = false) rounds ->
  let st' := followup_rounds rounds st in
  length (messages_of st') = length (messages_of st) + length rounds ∧
  length (history_of st') = length (history_of st) + 2 * length rounds ∧
  messages_of st `prefix_of` messages_of st' ∧
  (rounds ≠ [] -> st' !! "step" = Some (VStr "followup")).
Proof.
  revert st. induction rounds as [|[model q] rounds IH];
    intros st Hn Hs Hok Hall st'; subst st'.
  - simpl. repeat split; try lia; done.
  - apply Forall_cons in Hall as [Hq Hall]. simpl in Hq.
    destruct Hn as [vn Hn], Hs as [vs Hs].
    rewrite followup_rounds_cons.
    rewrite (handle_followup_answer model _ vn vs q);
      rewrite ?question_lists_ok; read_dict; try done.
    cbn [snd].
    match goal with
    | |- context [followup_rounds rounds ?st1] =>
        specialize (IH st1); set (next := st1) in *
    end.
    destruct IH as (Hmsgs & Hhist & Hpre & Hstep).
    { subst next. read_dict. eauto. }
    { subst next. read_dict. eauto. }
    { subst next. unfold lists_ok. by read_dict. }
    { done. }
    assert (Hm1 : messages_of next =
                  (messages_of st ++ [Message "assistant"
                     (ask_gemini model
                        (followup_context (py_format vn) (py_format vs)
                           (py_format (default (VStr "N/A") (st !! "initial_advice")))
                           (previous_context (last3 (history_of st))) q))])%list)
      by (subst next; by read_dict).
    assert (Hh1 : length (history_of next) = length (history_of st) + 2)
      by (subst next; read_dict; rewrite length_app; simpl; lia).
    unfold messages_of, history_of in *.
    rewrite Hmsgs, Hhist, Hh1, Hm1, length_app. simpl.
    repeat split; try lia.
    + etrans; [|exact Hpre]. rewrite Hm1. by apply prefix_app_r.
    + intros _. destruct rounds as [|round rounds']; [|by apply Hstep].
      simpl. subst next. by read_dict.
Qed.

Lemma followup_rounds_grow_witness :
  length (messages_of
            (followup_rounds (H := demo_runtime)
               [(service_up, "what about tax saving?"); (service_down, "and gold?")]
               asha_advised))
  = length (messages_of asha_advised) + 2.
Proof.
  apply (@followup_rounds_grow demo_runtime
           [(service_up, "what about tax saving?"); (service_down, "and gold?")]
           asha_advised);
    first [reflexivity | by eexists | repeat constructor].
Defined.

(** ** Text around a termination phrase *)

Lemma is_substring_embedded sub s pre post :
  is_substring sub s -> is_substring sub (pre ++ s ++ post).
Proof.
  intros (p & q & ->). exists (pre ++ p), (q ++ post).
  by rewrite !string_app_assoc.
Qed.

(** X6: the termination test is on substrings, so it is kept by any text
    put before or after: a lower-cased question that contains a question
    which ends the conversation ends it too. *)
Theorem wants_to_end_embedded lowered pre post :
  wants_to_end lowered = true ->
  wants_to_end (pre ++ lowered ++ post) = true.
Proof.
  rewrite !wants_to_end_spec. intros (phrase & Hin & Hsub).
  exists phrase. split; [done|]. by apply is_substring_embedded.
Qed.

Lemma wants_to_end_embedded_witness :
  wants_to_end ("well, " ++ "goodbye" ++ " then") = true.
Proof. apply (wants_to_end_embedded "goodbye" "well, " " then"). reflexivity. Defined.

(** * Further properties of [chat] *)

Lemma ask_name_opened `{PyRuntime} : ask_name ∅ = (Returned tt, opened).
Proof. vm_compute. reflexivity. Qed.

Lemma falsy_false_lookup (st : State) key v : st !! key = Some v -> falsy st = false.
Proof.
  intros Hk. unfold falsy. apply bool_decide_eq_false_2.
  intros Hd. apply dom_empty_iff_L in Hd. subst st. by rewrite lookup_empty in Hk.
Qed.

Lemma eq_str_true v s : eq_str v s = true ↔ v = Some (VStr s).
Proof.
  unfold eq_str. destruct v as [[t|x|l]|]; try (split; done).
  rewrite String.eqb_eq. split; congruence.
Qed.

Lemma eq_str_other v s s' : eq_str v s = true -> s ≠ s' -> eq_str v s' = false.
Proof.
  rewrite eq_str_true. intros -> Hne. simpl. by apply String.eqb_neq.
Qed.

(** Opens [chat] on the conversation the request is about. *)
Ltac enter_chat uuid4 request :=
  unfold chat; fold (effective_id uuid4 request).

(** Takes the branch of [chat] for the step the stored state is at. *)
Ltac at_step Hstep :=
  rewrite ?Hstep;
  repeat match goal with
         | |- context [eq_str (Some (VStr ?a)) ?b] =>
             let r := eval vm_compute in (eq_str (Some (VStr a)) b) in
             change (eq_str (Some (VStr a)) b) with r
         end;
  cbv iota.

(** Reads the stored state of the conversation. *)
Ltac stored Hst :=
  rewrite Hst; cbn [from_option]; unfold id.

Section ChatSteps.
Context `{PyRuntime}.
Variable model : string -> option string.
Variable extract : string -> string.
Variables (uuid4 : string) (request : UserInput) (store : Store).

Let cid := effective_id uuid4 request.

Lemma chat_opens :
  falsy (default ∅ (store !! cid)) = true ->
  chat model extract uuid4 request store =
    (Reply (VList [greeting]) (Some (VStr "ask_name")) cid false,
     <[cid := opened]> store).
Proof.
  intros Hfalsy. enter_chat uuid4 request. fold cid.
  by rewrite Hfalsy, ask_name_opened.
Qed.

Lemma chat_waits st :
  store !! cid = Some st ->
  falsy st = false ->
  awaits st request = true ->
  chat model extract uuid4 request store =
    (Reply (get_messages st) (st !! "step") cid false, store).
Proof.
  intros Hst Hfalsy Haw. enter_chat uuid4 request. fold cid.
  stored Hst. rewrite Hfalsy. unfold awaits in Haw.
  apply orb_prop in Haw as [Haw|Haw]; [apply orb_prop in Haw as [Haw|Haw]|];
    apply andb_prop in Haw as [Hstep Hnone].
  - rewrite Hstep. by destruct (name request).
  - rewrite (eq_str_other _ _ "ask_name" Hstep) by done. rewrite Hstep.
    by destruct (salary request).
  - rewrite (eq_str_other _ _ "ask_name" Hstep) by done.
    rewrite (eq_str_other _ _ "ask_salary" Hstep) by done. rewrite Hstep.
    by destruct (followup_question request).
Qed.

Lemma chat_refuses_salary st x :
  store !! cid = Some st ->
  st !! "step" = Some (VStr "ask_salary") ->
  salary request = Some x ->
  (x <=? 0)%float = true ->
  chat model extract uuid4 request store =
    (HTTPException 400 "Please provide a valid positive salary amount" None,
     store).
Proof.
  intros Hst Hstep Hsal Hle. enter_chat uuid4 request. fold cid.
  stored Hst. rewrite (falsy_false_lookup st _ _ Hstep). at_step Hstep.
  by rewrite Hsal, Hle.
Qed.

Lemma chat_name st text :
  store !! cid = Some st ->
  st !! "step" = Some (VStr "ask_name") ->
  list_or_absent (st !! "messages") = true ->
  name request = Some text ->
  let msgs := (messages_of st ++ [salary_request (extract text)])%list in
  chat model extract uuid4 request store =
    (Reply (VList msgs) (Some (VStr "ask_salary")) cid false,
     <[cid := <["messages" := VList msgs]>
                (<["step" := VStr "ask_salary"]>
                   (<["name" := VStr (extract text)]> st))]> store).
Proof.
  intros Hst Hstep Hm Hname msgs. enter_chat uuid4 request. fold cid.
  stored Hst. rewrite (falsy_false_lookup st _ _ Hstep). at_step Hstep.
  rewrite Hname, bind_setitem.
  rewrite (ask_salary_run _ (VStr (extract text))); read_dict; try done.
  cbv iota. rewrite py_format_str. unfold get_messages. by read_dict.
Qed.

Lemma chat_salary st n x :
  store !! cid = Some st ->
  st !! "step" = Some (VStr "ask_salary") ->
  st !! "name" = Some (VStr n) ->
  lists_ok st = true ->
  salary request = Some x ->
  (x <=? 0)%float = false ->
  let advice := ask_gemini model (advice_prompt n (py_format (VFloat x))) in
  let msgs := (messages_of st ++ [Message "assistant" advice])%list in
  chat model extract uuid4 request store =
    (Reply (VList msgs) (Some (VStr "followup")) cid false,
     <[cid := (give_advice model (<["salary" := VFloat x]> st)).2]> store) ∧
  (give_advice model (<["salary" := VFloat x]> st)).2 =
    <["step" := VStr "followup"]>
      (<["messages" := VList msgs]>
         (<["conversation_history" :=
              VList (history_of st ++
                [Message "system"
                   ("Initial advice given for " ++ n ++ " (salary: $"
                      ++ py_format (VFloat x) ++ "): " ++ advice)])]>
            (<["initial_advice" := VStr advice]>
               (<["salary" := VFloat x]> st)))).
Proof.
  intros Hst Hstep Hn Hok Hsal Hle advice msgs. subst advice msgs.
  enter_chat uuid4 request. fold cid.
  stored Hst. rewrite (falsy_false_lookup st _ _ Hstep). at_step Hstep.
  rewrite Hsal, Hle, bind_setitem.
  rewrite (give_advice_run model _ (VStr n) (VFloat x));
    unfold lists_ok in *; read_dict; try done.
  cbv iota. cbn [fst snd]. rewrite py_format_str. unfold get_messages.
  by read_dict.
Qed.

Lemma chat_followup st n x q :
  store !! cid = Some st ->
  st !! "step" = Some (VStr "followup") ->
  st !! "name" = Some (VStr n) ->
  st !! "salary" = Some (VFloat x) ->
  lists_ok st = true ->
  followup_question request = Some q ->
  wants_to_end (str_lower q) = false ->
  let answer :=
    ask_gemini model
      (followup_context n (py_format (VFloat x))
         (py_format (default (VStr "N/A") (st !! "initial_advice")))
         (previous_context (last3 (history_of st))) q) in
  let msgs := (messages_of st ++ [Message "assistant" answer])%list in
  chat model extract uuid4 request store =
    (Reply (VList msgs) (Some (VStr "followup")) cid false,
     <[cid := <["messages" := VList msgs]>
                (<["conversation_history" :=
                     VList (history_of st ++
                       [Message "user" ("Follow-up question: " ++ q);
                        Message "assistant" ("Follow-up response: " ++ answer)])]>
                   (<["step" := VStr "followup"]>
                      (<["followup_question" := VStr q]> st)))]> store).
Proof.
  intros Hst Hstep Hn Hs Hok Hq Hend answer msgs. subst answer msgs.
  enter_chat uuid4 request. fold cid.
  stored Hst. rewrite (falsy_false_lookup st _ _ Hstep). at_step Hstep.
  rewrite Hq, bind_setitem.
  rewrite (handle_followup_answer model _ (VStr n) (VFloat x) q);
    rewrite ?question_lists_ok; read_dict; try done.
  cbv iota. cbn [fst snd]. rewrite !py_format_str. read_dict.
  at_step Hstep. unfold get_messages. by read_dict.
Qed.

Lemma chat_farewell st n q :
  store !! cid = Some st ->
  st !! "step" = Some (VStr "followup") ->
  st !! "name" = Some (VStr n) ->
  lists_ok st = true ->
  followup_question request = Some q ->
  wants_to_end (str_lower q) = true ->
  chat model extract uuid4 request store =
    (Reply (VList (messages_of st ++ [Message "assistant" (farewell n)]))
       (Some (VStr "conversation_ended")) cid true,
     delete cid store).
Proof.
  intros Hst Hstep Hn Hok Hq Hend.
  enter_chat uuid4 request. fold cid.
  stored Hst. rewrite (falsy_false_lookup st _ _ Hstep). at_step Hstep.
  rewrite Hq, bind_setitem.
  rewrite (handle_followup_farewell model _ (VStr n) q);
    rewrite ?question_lists_ok; read_dict; try done.
  cbv iota. rewrite py_format_str. read_dict. at_step Hstep.
  unfold get_messages. by read_dict.
Qed.

End ChatSteps.

(** ** The store invariant *)

Lemma conv_ok_cases st :
  conv_ok st = true ->
  lists_ok st = true ∧
  (st !! "step" = Some (VStr "ask_name") ∨
   (st !! "step" = Some (VStr "ask_salary") ∧ ∃ n, st !! "name" = Some (VStr n)) ∨
   (st !! "step" = Some (VStr "followup") ∧
    (∃ n, st !! "name" = Some (VStr n)) ∧ ∃ x, st !! "salary" = Some (VFloat x))).
Proof.
  unfold conv_ok, holds_str, holds_float. intros [Hok Hsteps]%andb_prop.
  split; [done|].
  repeat match goal with
         | Hb : _ || _ = true |- _ => apply orb_prop in Hb as [Hb|Hb]
         | Hb : _ && _ = true |- _ => apply andb_prop in Hb as [? Hb]
         | Hb : eq_str _ _ = true |- _ => apply eq_str_true in Hb
         end.
  - by left.
  - right; left. destruct (st !! "name") as [[n|?|?]|]; try done. eauto.
  - right; right.
    destruct (st !! "name") as [[n|?|?]|]; try done.
    destruct (st !! "salary") as [[?|x|?]|]; try done. eauto.
Qed.

Lemma conv_ok_intro st s :
  lists_ok st = true ->
  st !! "step" = Some (VStr s) ->
  (s = "ask_name" ∨
   (s = "ask_salary" ∧ holds_str (st !! "name") = true) ∨
   (s = "followup" ∧ holds_str (st !! "name") = true ∧
    holds_float (st !! "salary") = true)) ->
  conv_ok st = true.
Proof.
  intros Hok Hstep Hs. unfold conv_ok. rewrite Hok, Hstep.
  destruct Hs as [->|[[-> Hn]|(-> & Hn & Hsal)]]; by rewrite ?Hn, ?Hsal.
Qed.

Lemma chat_step_ok `{PyRuntime} model extract uuid4 request (store : Store) :
  store_ok store ->
  benign (chat model extract uuid4 request store).1 ∧
  store_ok (chat model extract uuid4 request store).2.
Proof.
  intros Hstore. set (cid := effective_id uuid4 request).
  destruct (store !! cid) as [st|] eqn:Hst.
  - pose proof (Hstore cid st Hst) as Hconv. simpl in Hconv.
    apply conv_ok_cases in Hconv
      as (Hok & [Hstep|[(Hstep & n & Hn)|(Hstep & (n & Hn) & x & Hx)]]).
    + destruct (name request) as [text|] eqn:Hname.
      * rewrite (chat_name model extract uuid4 request store st text);
          try done; [|by apply lists_ok_messages].
        split; [done|]. apply map_Forall_insert_2; [|done].
        apply (conv_ok_intro _ "ask_salary").
        -- revert Hok. unfold lists_ok. read_dict. by intros [_ ->]%andb_prop.
        -- by read_dict.
        -- right; left. split; [done|]. by read_dict.
      * rewrite (chat_waits model extract uuid4 request store st); try done.
        -- by apply (falsy_false_lookup st _ _ Hstep).
        -- unfold awaits. by rewrite Hstep, Hname.
    + destruct (salary request) as [x|] eqn:Hsal.
      * destruct (x <=? 0)%float eqn:Hle.
        -- by rewrite (chat_refuses_salary model extract uuid4 request store st x).
        -- destruct (chat_salary model extract uuid4 request store st n x)
             as [-> Hst']; try done.
           split; [done|]. apply map_Forall_insert_2; [|done]. rewrite Hst'.
           apply (conv_ok_intro _ "followup").
           ++ unfold lists_ok. by read_dict.
           ++ by read_dict.
           ++ right; right. split; [done|]. read_dict. by rewrite Hn.
      * rewrite (chat_waits model extract uuid4 request store st); try done.
        -- by apply (falsy_false_lookup st _ _ Hstep).
        -- unfold awaits. by rewrite Hstep, Hsal.
    + destruct (followup_question request) as [q|] eqn:Hq.
      * destruct (wants_to_end (str_lower q)) eqn:Hend.
        -- rewrite (chat_farewell model extract uuid4 request store st n q);
             try done.
           split; [done|]. by apply map_Forall_delete.
        -- rewrite (chat_followup model extract uuid4 request store st n x q);
             try done.
           split; [done|]. apply map_Forall_insert_2; [|done].
           apply (conv_ok_intro _ "followup").
           ++ unfold lists_ok. by read_dict.
           ++ by read_dict.
           ++ right; right. split; [done|]. read_dict. by rewrite Hn, Hx.
      * rewrite (chat_waits model extract uuid4 request store st); try done.
        -- by apply (falsy_false_lookup st _ _ Hstep).
        -- unfold awaits. by rewrite Hstep, Hq.
  - rewrite (chat_opens model extract uuid4 request store);
      [|fold cid; by rewrite Hst].
    split; [done|]. apply map_Forall_insert_2; [by vm_compute|done].
Qed.

(** ** X7 to X17: the request handler *)

(** X7: a request whose conversation is not in the store (no identifier,
    an empty or unknown one, or a stored empty dictionary) opens a
    conversation under the effective identifier: the reply is the greeting
    at step [ask_name], whatever else the request carries, and the new state
    is stored. *)
Theorem chat_opens_conversation_any `{PyRuntime} model extract uuid4 request
    (store : Store) :
  let cid := effective_id uuid4 request in
  falsy (default ∅ (store !! cid)) = true ->
  chat model extract uuid4 request store =
    (Reply (VList [greeting]) (Some (VStr "ask_name")) cid false,
     <[cid := opened]> store).
Proof.
  intros cid Hfalsy. enter_chat uuid4 request. fold cid.
  rewrite Hfalsy, ask_name_opened. cbv iota.
  unfold get_messages, opened. by read_dict.
Qed.

Lemma chat_opens_conversation_any_witness :
  chat (H := demo_runtime) service_up (λ text, text) "fresh"
       (request_for "" (Some "Asha") None None) asha_store =
    (Reply (VList [greeting]) (Some (VStr "ask_name")) "fresh" false,
     <["fresh" := opened]> asha_store).
Proof.
  apply (@chat_opens_conversation_any demo_runtime service_up (λ text, text)
           "fresh" (request_for "" (Some "Asha") None None) asha_store).
  reflexivity.
Defined.

(** X8: when the stored conversation is at a step whose input the request
    does not carry ([name] at [ask_name], [salary] at [ask_salary],
    [followup_question] at [followup]), [chat] replies with the stored
    messages and step and leaves the store as it is; the other fields of the
    request are not looked at. *)
Theorem chat_waits_for_input `{PyRuntime} model extract uuid4 request
    (store : Store) st :
  let cid := effective_id uuid4 request in
  store !! cid = Some st ->
  falsy st = false ->
  awaits st request = true ->
  chat model extract uuid4 request store =
    (Reply (get_messages st) (st !! "step") cid false, store).
Proof.
  intros cid Hst Hfalsy Haw. enter_chat uuid4 request. fold cid.
  stored Hst. rewrite Hfalsy. unfold awaits in Haw.
  destruct (eq_str (st !! "step") "ask_name") eqn:Hname.
  { rewrite (eq_str_other _ _ "ask_salary" Hname) in Haw by done.
    rewrite (eq_str_other _ _ "followup" Hname) in Haw by done.
    by destruct (name request). }
  destruct (eq_str (st !! "step") "ask_salary") eqn:Hsalary.
  { rewrite (eq_str_other _ _ "followup" Hsalary) in Haw by done.
    by destruct (salary request). }
  destruct (eq_str (st !! "step") "followup") eqn:Hfollowup; [|done].
  by destruct (followup_question request).
Qed.

Lemma chat_waits_for_input_witness :
  (chat (H := demo_runtime) service_up (λ text, text) "fresh"
        (request_for "a2" (Some "Asha") None (Some "bye")) asha_store).2
  = asha_store.
Proof.
  rewrite (@chat_waits_for_input demo_runtime service_up (λ text, text) "fresh"
             (request_for "a2" (Some "Asha") None (Some "bye")) asha_store
             (<["messages" := VList [greeting]]> asha_salaried));
    reflexivity.
Defined.

(** X9: at step [ask_salary], a salary that is not greater than zero is
    refused with the 400 error, the store is left as it is and the service
    is not asked. *)
Theorem chat_rejects_nonpositive_salary `{PyRuntime} model extract uuid4 request
    (store : Store) st x :
  let cid := effective_id uuid4 request in
  store !! cid = Some st ->
  st !! "step" = Some (VStr "ask_salary") ->
  salary request = Some x ->
  (x <=? 0)%float = true ->
  chat model extract uuid4 request store =
    (HTTPException 400 "Please provide a valid positive salary amount" None,
     store).
Proof.
  intros cid Hst Hstep Hsal Hle. enter_chat uuid4 request. fold cid.
  stored Hst.
  assert (Hfalsy : falsy st = false) by exact (falsy_false_lookup st _ _ Hstep).
  rewrite Hfalsy. at_step Hstep. rewrite Hsal. by rewrite Hle.
Qed.

Lemma chat_rejects_nonpositive_salary_witness :
  chat (H := demo_runtime) service_up (λ text, text) "fresh"
       (request_for "a2" None (Some (-1)%float) None) asha_store =
    (HTTPException 400 "Please provide a valid positive salary amount" None,
     asha_store).
Proof.
  apply (@chat_rejects_nonpositive_salary demo_runtime service_up (λ text, text)
           "fresh" (request_for "a2" None (Some (-1)%float) None) asha_store
           (<["messages" := VList [greeting]]> asha_salaried) (-1)%float);
    reflexivity.
Defined.

(** X10: at step [ask_name], a request with a name stores the extracted
    name, moves to [ask_salary] and replies with the transcript extended by
    the salary request addressed to that name. *)
Theorem chat_takes_name `{PyRuntime} model extract uuid4 request
    (store : Store) st text :
  let cid := effective_id uuid4 request in
  store !! cid = Some st ->
  st !! "step" = Some (VStr "ask_name") ->
  list_or_absent (st !! "messages") = true ->
  name request = Some text ->
  let msgs := (messages_of st ++ [salary_request (extract text)])%list in
  chat model extract uuid4 request store =
    (Reply (VList msgs) (Some (VStr "ask_salary")) cid false,
     <[cid := <["messages" := VList msgs]>
                (<["step" := VStr "ask_salary"]>
                   (<["name" := VStr (extract text)]> st))]> store).
Proof.
  intros cid Hst Hstep Hm Hname msgs. subst msgs.
  enter_chat uuid4 request. fold cid. stored Hst.
  assert (Hfalsy : falsy st = false) by exact (falsy_false_lookup st _ _ Hstep).
  rewrite Hfalsy. at_step Hstep. rewrite Hname, bind_setitem.
  assert (Hrun := ask_salary_run (<["name" := VStr (extract text)]> st)
                    (VStr (extract text))).
  rewrite Hrun by (read_dict; done).
  cbv iota. rewrite py_format_str. unfold get_messages. by read_dict.
Qed.

Lemma chat_takes_name_witness :
  (chat (H := demo_runtime) service_up (λ text, text) "fresh"
        (request_for "a1" (Some "Asha") None None) asha_store).1 =
  Reply (VList [greeting; salary_request "Asha"]) (Some (VStr "ask_salary"))
        "a1" false.
Proof.
  rewrite (@chat_takes_name demo_runtime service_up (λ text, text) "fresh"
             (request_for "a1" (Some "Asha") None None) asha_store opened "Asha");
    reflexivity.
Defined.

(** X11: at step [ask_salary], a request with a salary greater than zero
    stores it, asks the service for the plan and replies, in the same
    request, with the transcript extended by the plan at step [followup];
    the stored state holds the salary and the plan. *)
Theorem chat_takes_salary `{PyRuntime} model extract uuid4 request
    (store : Store) st n x :
  let cid := effective_id uuid4 request in
  store !! cid = Some st ->
  st !! "step" = Some (VStr "ask_salary") ->
  st !! "name" = Some (VStr n) ->
  lists_ok st = true ->
  salary request = Some x ->
  (x <=? 0)%float = false ->
  let advice := ask_gemini model (advice_prompt n (py_format (VFloat x))) in
  let r := chat model extract uuid4 request store in
  r.1 = Reply (VList (messages_of st ++ [Message "assistant" advice]))
          (Some (VStr "followup")) cid false ∧
  ∃ st', r.2 = <[cid := st']> store ∧
         st' !! "salary" = Some (VFloat x) ∧
         st' !! "initial_advice" = Some (VStr advice) ∧
         st' !! "step" = Some (VStr "followup").
Proof.
  intros cid Hst Hstep Hn Hok Hsal Hle advice r. subst r.
  destruct (chat_salary model extract uuid4 request store st n x)
    as [-> Hst']; try done.
  cbn [fst snd]. split; [done|]. eexists. split; [done|].
  rewrite Hst'. by read_dict.
Qed.

Lemma chat_takes_salary_witness :
  (chat (H := demo_runtime) service_up (λ text, text) "fresh"
        (request_for "a2" None (Some 50000%float) None) asha_store).1 =
  Reply (VList [greeting; Message "assistant" "Save more."])
        (Some (VStr "followup")) "a2" false.
Proof.
  edestruct (@chat_takes_salary demo_runtime service_up (λ text, text) "fresh"
           (request_for "a2" None (Some 50000%float) None) asha_store
           (<["messages" := VList [greeting]]> asha_salaried) "Asha" 50000%float) as [W _];
    [reflexivity..|exact W].
Defined.

(** X12: at step [followup], a question without a termination phrase is
    stored in the state, answered from the prompt built on the stored name,
    salary, plan and last three history entries, and the reply is the
    transcript extended by the answer, still at step [followup]. *)
Theorem chat_answers_followup `{PyRuntime} model extract uuid4 request
    (store : Store) st n x q :
  let cid := effective_id uuid4 request in
  store !! cid = Some st ->
  st !! "step" = Some (VStr "followup") ->
  st !! "name" = Some (VStr n) ->
  st !! "salary" = Some (VFloat x) ->
  lists_ok st = true ->
  followup_question request = Some q ->
  wants_to_end (str_lower q) = false ->
  let answer :=
    ask_gemini model
      (followup_context n (py_format (VFloat x))
         (py_format (default (VStr "N/A") (st !! "initial_advice")))
         (previous_context (last3 (history_of st))) q) in
  let r := chat model extract uuid4 request store in
  r.1 = Reply (VList (messages_of st ++ [Message "assistant" answer]))
          (Some (VStr "followup")) cid false ∧
  ∃ st', r.2 = <[cid := st']> store ∧
         st' !! "followup_question" = Some (VStr q) ∧
         history_of st' =
           (history_of st ++
              [Message "user" ("Follow-up question: " ++ q);
               Message "assistant" ("Follow-up response: " ++ answer)])%list.
Proof.
  intros cid Hst Hstep Hn Hs Hok Hq Hend answer r. subst r.
  rewrite (chat_followup model extract uuid4 request store st n x q); try done.
  cbn [fst snd]. split; [done|]. eexists. split; [done|]. by read_dict.
Qed.

Lemma chat_answers_followup_witness :
  (chat (H := demo_runtime) service_up (λ text, text) "fresh"
        (request_for "a3" None None (Some "what about tax saving?")) asha_store).1 =
  Reply (VList [Message "assistant" "Save more."; Message "assistant" "Save more."])
        (Some (VStr "followup")) "a3" false.
Proof.
  edestruct (@chat_answers_followup demo_runtime service_up (λ text, text) "fresh"
           (request_for "a3" None None (Some "what about tax saving?")) asha_store
           asha_advised "Asha" 50000%float "what about tax saving?") as [W _];
    [reflexivity..|exact W].
Defined.

(** X13: at step [followup], a question with a termination phrase is
    answered with the farewell, flagged as ended, and the conversation is
    removed from the store; any later request under the same identifier
    opens a new conversation from the greeting. *)
Theorem chat_ends_and_restarts `{PyRuntime} model extract uuid4 request
    (store : Store) st n q :
  let cid := effective_id uuid4 request in
  store !! cid = Some st ->
  st !! "step" = Some (VStr "followup") ->
  st !! "name" = Some (VStr n) ->
  lists_ok st = true ->
  followup_question request = Some q ->
  wants_to_end (str_lower q) = true ->
  chat model extract uuid4 request store =
    (Reply (VList (messages_of st ++ [Message "assistant" (farewell n)]))
       (Some (VStr "conversation_ended")) cid true,
     delete cid store) ∧
  ∀ model' uuid4' request',
    effective_id uuid4' request' = cid ->
    chat model' extract uuid4' request' (delete cid store) =
      (Reply (VList [greeting]) (Some (VStr "ask_name")) cid false,
       <[cid := opened]> store).
Proof.
  intros cid Hst Hstep Hn Hok Hq Hend. split.
  - by apply (chat_farewell model extract uuid4 request store st n q).
  - intros model' uuid4' request' Hid.
    rewrite (chat_opens model' extract uuid4' request');
      rewrite Hid; [by rewrite insert_delete_eq|].
    by rewrite lookup_delete_eq.
Qed.

Lemma chat_ends_and_restarts_witness :
  chat (H := demo_runtime) service_up (λ text, text) "fresh"
       (request_for "a3" None None (Some "Thanks, bye!")) asha_store =
    (Reply (VList [Message "assistant" "Save more.";
                   Message "assistant" (farewell "Asha")])
       (Some (VStr "conversation_ended")) "a3" true,
     delete "a3" asha_store).
Proof.
  edestruct (@chat_ends_and_restarts demo_runtime service_up (λ text, text) "fresh"
           (request_for "a3" None None (Some "Thanks, bye!")) asha_store
           asha_advised "Asha" "Thanks, bye!") as [W _];
    [reflexivity..|exact W].
Defined.

(** X14: a stored state at step [conversation_ended] is answered with its
    transcript, flagged as ended, and removed from the store, whatever the
    request carries. *)
Theorem chat_forgets_ended `{PyRuntime} model extract uuid4 request
    (store : Store) st :
  let cid := effective_id uuid4 request in
  store !! cid = Some st ->
  st !! "step" = Some (VStr "conversation_ended") ->
  chat model extract uuid4 request store =
    (Reply (get_messages st) (Some (VStr "conversation_ended")) cid true,
     delete cid store).
Proof.
  intros cid Hst Hstep. enter_chat uuid4 request. fold cid.
  stored Hst. rewrite (falsy_false_lookup st _ _ Hstep). by at_step Hstep.
Qed.

Lemma chat_forgets_ended_witness :
  chat (H := demo_runtime) service_up (λ text, text) "fresh"
       (request_for "a4" None None (Some "one more thing")) asha_store =
    (Reply (VList []) (Some (VStr "conversation_ended")) "a4" true,
     delete "a4" asha_store).
Proof.
  apply (@chat_forgets_ended demo_runtime service_up (λ text, text) "fresh"
           (request_for "a4" None None (Some "one more thing")) asha_store
           asha_ended);
    reflexivity.
Defined.

(** X15: [chat] reads and writes the store under the effective identifier
    of the request only: every other conversation is stored afterwards as
    it was before. *)
Theorem chat_other_conversations_untouched `{PyRuntime} model extract uuid4
    request (store : Store) other :
  other ≠ effective_id uuid4 request ->
  (chat model extract uuid4 request store).2 !! other = store !! other.
Proof.
  intros Hother. enter_chat uuid4 request.
  repeat case_match; cbn [snd];
    rewrite ?lookup_insert_ne, ?lookup_delete_ne by done; done.
Qed.

Lemma chat_other_conversations_untouched_witness :
  (chat (H := demo_runtime) service_up (λ text, text) "fresh"
        (request_for "a3" None None (Some "Thanks, bye!")) asha_store).2 !! "a2"
  = asha_store !! "a2".
Proof.
  apply (@chat_other_conversations_untouched demo_runtime service_up
           (λ text, text) "fresh"
           (request_for "a3" None None (Some "Thanks, bye!")) asha_store "a2").
  discriminate.
Defined.

(** X16: when every stored state is one [chat] itself stores (well-formed
    lists; step [ask_name], [ask_salary] with a name, or [followup] with a
    name and a salary), as in the empty store a server starts with, then
    whatever requests are handled one after the other and whatever the
    service answers, no reply is a 500 or the restart error, and the store
    left holds states of that kind only: never one at [advice] or at
    [conversation_ended]. *)
Theorem serve_never_fails `{PyRuntime} extract calls (store : Store) :
  store_ok store ->
  Forall benign (serve extract calls store).1 ∧
  store_ok (serve extract calls store).2.
Proof.
  revert store. induction calls as [|[[uuid4 model] request] calls IH];
    intros store Hstore; [by split|].
  cbn [serve]. cbn [fst snd].
  destruct (chat_step_ok model extract uuid4 request store Hstore) as [Hb Hs].
  destruct (IH _ Hs) as [Hbs Hss]. split; [by constructor|done].
Qed.

Lemma serve_never_fails_witness :
  Forall benign
    (serve (H := demo_runtime) (λ text, text)
       [("c1", service_up, request_for "" None None None);
        ("c2", service_up, request_for "c1" (Some "Asha") None None);
        ("c3", service_down, request_for "c1" None (Some 0%float) None);
        ("c4", service_down, request_for "c1" None (Some 50000%float) None);
        ("c5", service_up, request_for "c1" None None (Some "and gold?"));
        ("c6", service_up, request_for "c1" None None (Some "thanks"));
        ("c7", service_up, request_for "c1" None None (Some "hello again"))]
       ∅).1.
Proof.
  eapply proj1, (@serve_never_fails demo_runtime). apply map_Forall_empty.
Defined.

(** X17: a follow-up request on a stored state without a [name] is answered
    with a 500 caused by the [KeyError]; the conversation stays in the
    store, with the question stored, [step] overwritten (with
    [conversation_ended] when the question has a termination phrase) and
    the transcript as it was. *)
Theorem chat_failure_keeps_state `{PyRuntime} model extract uuid4 request
    (store : Store) st q :
  let cid := effective_id uuid4 request in
  store !! cid = Some st ->
  st !! "step" = Some (VStr "followup") ->
  st !! "name" = None ->
  lists_ok st = true ->
  followup_question request = Some q ->
  let r := chat model extract uuid4 request store in
  r.1 = HTTPException 500 "Error handling follow-up: " (Some (KeyError "name")) ∧
  ∃ st', r.2 = <[cid := st']> store ∧
         st' !! "followup_question" = Some (VStr q) ∧
         messages_of st' = messages_of st ∧
         st' !! "step" =
           Some (VStr (if wants_to_end (str_lower q)
                       then "conversation_ended" else "followup")).
Proof.
  intros cid Hst Hstep Hn Hok Hq r. subst r.
  enter_chat uuid4 request. fold cid.
  stored Hst. rewrite (falsy_false_lookup st _ _ Hstep). at_step Hstep.
  rewrite Hq, bind_setitem.
  destruct (wants_to_end (str_lower q)) eqn:Hend.
  - rewrite (handle_followup_farewell_no_name model _ q);
      rewrite ?question_lists_ok; read_dict; try done.
    cbv iota. cbn [fst snd]. split; [done|]. eexists. split; [done|].
    by read_dict.
  - rewrite (handle_followup_no_name model _ q);
      rewrite ?question_lists_ok; read_dict; try done.
    cbv iota. cbn [fst snd]. split; [done|]. eexists. split; [done|].
    by read_dict.
Qed.

Lemma chat_failure_keeps_state_witness :
  (chat (H := demo_runtime) service_up (λ text, text) "fresh"
        (request_for "a5" None None (Some "bye")) asha_store).1 =
  HTTPException 500 "Error handling follow-up: " (Some (KeyError "name")).
Proof.
  edestruct (@chat_failure_keeps_state demo_runtime service_up (λ text, text) "fresh"
           (request_for "a5" None None (Some "bye")) asha_store
           {[ "step" := VStr "followup" ]} "bye") as [W _];
    [reflexivity..|exact W].
Defined.

(** * Further properties of [extract_name_from_text] *)

(** ** The scanners at work *)

(** The examples of the docstring and of the comments on the patterns. *)
Example extract_name_documented :
  map extract_name_from_text
    ["My name is John"; "My name is John Smith"; "I'm Sarah"; "I am Mike Brown";
     "Call me David"; "Name: Lisa Wilson"; "It's Alex Taylor"]
  = ["John"; "John Smith"; "Sarah"; "Mike Brown"; "David"; "Lisa Wilson";
     "Alex Taylor"].
Proof. vm_compute. reflexivity. Qed.

(** The patterns are tried in their order, not by position in the text, and
    the group takes every word of letters that follows. *)
Example extract_name_heuristic :
  map extract_name_from_text
    ["it's cold but my name is John"; "My name is John and I'm 30";
     "I am the walrus"]
  = ["John"; "John and I"; "the walrus"].
Proof. vm_compute. reflexivity. Qed.

(** Without a pattern: stop words and punctuation go, white space is
    squeezed; when nothing is left the text itself is the name. *)
Example extract_name_cleaned :
  map extract_name_from_text
    ["  Dr. Strange  "; "The name is Bond"; "name's Bob"; "call me"; "a-b";
     "my name is 42"]
  = ["Dr Strange"; "Bond"; "s Bob"; "call me"; "b"; "42"].
Proof. vm_compute. reflexivity. Qed.

(** A conversation from the first request to the farewell, with the name
    taken out of a sentence. *)
Example conversation_with_extraction :
  (serve (H := demo_runtime) extract_name_from_text
     [("c1", service_up, request_for "" None None None);
      ("c2", service_up, request_for "c1" (Some "Hi, I'm Asha!") None None);
      ("c3", service_up, request_for "c1" None (Some 50000%float) None);
      ("c4", service_down, request_for "c1" None None (Some "thanks"))]
     ∅)
  = ([Reply (VList [greeting]) (Some (VStr "ask_name")) "c1" false;
      Reply (VList [greeting; salary_request "Asha"])
            (Some (VStr "ask_salary")) "c1" false;
      Reply (VList [greeting; salary_request "Asha";
                    Message "assistant" "Save more."])
            (Some (VStr "followup")) "c1" false;
      Reply (VList [greeting; salary_request "Asha";
                    Message "assistant" "Save more.";
                    Message "assistant" (farewell "Asha")])
            (Some (VStr "conversation_ended")) "c1" true],
     ∅).
Proof. vm_compute. reflexivity. Qed.

(** ** Strings *)

Lemma length_str_app (a b : string) :
  String.length (a ++ b) = String.length a + String.length b.
Proof. induction a as [|c a IH]; [done|]. rewrite app_cons. simpl. by rewrite IH. Qed.

Lemma str_all_app p (a b : string) :
  str_all p (a ++ b) = str_all p a && str_all p b.
Proof.
  induction a as [|c a IH]; [done|]. rewrite app_cons. simpl.
  by rewrite IH, andb_assoc.
Qed.

Lemma str_all_impl (p q : ascii -> bool) s :
  (∀ c, p c = true -> q c = true) -> str_all p s = true -> str_all q s = true.
Proof.
  intros Hpq. induction s as [|c s IH]; [done|]. simpl.
  intros [Hc Hs]%andb_prop. by rewrite (Hpq c Hc), IH.
Qed.

Lemma rev_app_spec (s acc : string) : String.rev_app s acc = String.rev s ++ acc.
Proof.
  unfold String.rev. revert acc. induction s as [|c s IH]; intros acc; [done|].
  simpl. rewrite (IH (String c "")), IH.
  by rewrite string_app_assoc.
Qed.

Lemma rev_cons c (s : string) : String.rev (String c s) = String.rev s ++ String c "".
Proof. unfold String.rev at 1. simpl. by rewrite rev_app_spec. Qed.

Lemma rev_str_app (a b : string) :
  String.rev (a ++ b) = String.rev b ++ String.rev a.
Proof.
  induction a as [|c a IH]; [by rewrite app_empty_r|].
  by rewrite app_cons, !rev_cons, IH, string_app_assoc.
Qed.

Lemma rev_involutive (s : string) : String.rev (String.rev s) = s.
Proof.
  induction s as [|c s IH]; [done|]. by rewrite rev_cons, rev_str_app, IH.
Qed.

Lemma length_rev (s : string) : String.length (String.rev s) = String.length s.
Proof.
  induction s as [|c s IH]; [done|].
  rewrite rev_cons, length_str_app, IH. simpl. lia.
Qed.

Lemma str_all_rev p (s : string) : str_all p (String.rev s) = str_all p s.
Proof.
  induction s as [|c s IH]; [done|].
  rewrite rev_cons, str_all_app, IH. simpl. by rewrite andb_true_r, andb_comm.
Qed.

(** ** Character classes *)

Lemma letter_is_word c : is_letter c = true -> is_word_char c = true.
Proof. unfold is_word_char. by intros ->. Qed.

Lemma letter_not_space c : is_letter c = true -> is_space c = false.
Proof. destruct c as [[] [] [] [] [] [] [] []]; done. Qed.

Lemma word_not_space c : is_word_char c = true -> is_space c = false.
Proof. destruct c as [[] [] [] [] [] [] [] []]; done. Qed.

Lemma lower_char_letter c : is_letter (lower_char c) = is_letter c.
Proof. destruct c as [[] [] [] [] [] [] [] []]; done. Qed.

(** ** [strip] *)

Lemma lstrip_head c s : is_space c = false -> lstrip (String c s) = String c s.
Proof. intros Hc. simpl. by rewrite Hc. Qed.

Lemma lstrip_idem s : lstrip (lstrip s) = lstrip s.
Proof.
  induction s as [|c s IH]; [done|]. simpl.
  destruct (is_space c) eqn:Hc; [done|]. by apply lstrip_head.
Qed.

Lemma length_lstrip s : String.length (lstrip s) <= String.length s.
Proof.
  induction s as [|d s IH]; simpl; [done|].
  destruct (is_space d); simpl; lia.
Qed.

Lemma lstrip_fixed s :
  lstrip s = s ↔ (s = "" ∨ ∃ c s', s = String c s' ∧ is_space c = false).
Proof.
  destruct s as [|c s]; [split; [by left|done]|]. simpl.
  destruct (is_space c) eqn:Hc.
  - split.
    + intros Heq. pose proof (length_lstrip s) as Hlen.
      rewrite Heq in Hlen. simpl in Hlen. lia.
    + intros [Heq|(d & s' & Heq & Hd)]; [done|]. congruence.
  - split; [|done]. intros _. right. by exists c, s.
Qed.

Lemma length_strip s : String.length (strip_ascii s) <= String.length s.
Proof.
  unfold strip_ascii. rewrite length_rev.
  etrans; [apply length_lstrip|]. rewrite length_rev. apply length_lstrip.
Qed.

Lemma lstrip_all_space s : str_all is_space s = true -> lstrip s = "".
Proof.
  induction s as [|c s IH]; [done|]. simpl. intros [-> Hs]%andb_prop. auto.
Qed.

(** Trailing white space goes, and what is in front stays. *)
Lemma lstrip_keeps_end a c b :
  is_space c = false -> ∃ w, lstrip (a ++ String c b) = w ++ String c b.
Proof.
  intros Hc. induction a as [|d a [w IH]].
  - exists "". by apply lstrip_head.
  - rewrite app_cons. simpl. destruct (is_space d).
    + by exists w.
    + by exists (String d a).
Qed.

Lemma strip_fixed s :
  lstrip s = s -> lstrip (String.rev s) = String.rev s -> strip_ascii s = s.
Proof.
  intros Hl Hr. unfold strip_ascii. by rewrite Hl, Hr, rev_involutive.
Qed.

Lemma strip_idem s : strip_ascii (strip_ascii s) = strip_ascii s.
Proof.
  apply strip_fixed.
  - unfold strip_ascii. set (t := lstrip s).
    assert (Ht : lstrip t = t) by apply lstrip_idem.
    apply lstrip_fixed in Ht as [->|(c & t' & -> & Hc)]; [done|].
    rewrite rev_cons.
    destruct (lstrip_keeps_end (String.rev t') c "" Hc) as [w ->].
    rewrite rev_str_app. simpl. by rewrite Hc.
  - unfold strip_ascii. rewrite rev_involutive. apply lstrip_idem.
Qed.

Lemma strip_letters s : str_all is_letter s = true -> strip_ascii s = s.
Proof.
  intros Hs. apply strip_fixed; apply lstrip_fixed.
  - destruct s as [|c s]; [by left|right]. exists c, s. split; [done|].
    apply letter_not_space. by apply andb_prop in Hs as [? _].
  - rewrite <- (str_all_rev is_letter) in Hs.
    destruct (String.rev s) as [|c r]; [by left|right]. exists c, r.
    split; [done|]. apply letter_not_space. by apply andb_prop in Hs as [? _].
Qed.

Lemma strip_all_space s : str_all is_space s = true -> strip_ascii s = "".
Proof. intros Hs. unfold strip_ascii. by rewrite (lstrip_all_space s Hs). Qed.

(** ** The scanners *)

Lemma str_take_length n s : String.length (str_take n s) <= n.
Proof.
  unfold str_take. revert s. induction n as [|n IH]; intros [|c s]; simpl;
    try lia. specialize (IH s). lia.
Qed.

Lemma str_take_short n s : String.length s <= n -> str_take n s = s.
Proof.
  unfold str_take. revert s. induction n as [|n IH]; intros [|c s]; simpl;
    try done; try lia. intros Hlen. rewrite IH; [done|lia].
Qed.

Lemma str_take_all p n s : str_all p s = true -> str_all p (str_take n s) = true.
Proof.
  unfold str_take. revert s. induction n as [|n IH]; intros [|c s]; simpl;
    try done. intros [-> Hs]%andb_prop. by apply IH.
Qed.

Lemma literal_ci_letters lit s rest :
  literal_ci lit s = Some rest ->
  str_all is_letter s = true ->
  str_all is_letter lit = true.
Proof.
  revert s. induction lit as [|l lit IH]; intros [|c s]; simpl; try done.
  destruct (Ascii.eqb (lower_char c) l) eqn:Hl; [|done].
  apply Ascii.eqb_eq in Hl as <-. intros Hrest [Hc Hs]%andb_prop.
  by rewrite lower_char_letter, Hc, (IH s).
Qed.

Lemma re_search_letters lit space_needed s :
  str_all is_letter lit = false ->
  str_all is_letter s = true ->
  re_search lit space_needed s = None.
Proof.
  intros Hlit. induction s as [|c s IH]; intros Hs.
  - simpl. unfold intro_at. destruct lit; [done|]. done.
  - cbn [re_search]. unfold intro_at at 1.
    destruct (literal_ci lit (String c s)) as [rest|] eqn:Hm.
    + apply literal_ci_letters in Hm; [congruence|done].
    + apply IH. by apply andb_prop in Hs as [_ ?].
Qed.

Lemma first_match_letters s :
  str_all is_letter s = true -> first_match patterns s = None.
Proof.
  intros Hs. unfold patterns. cbn [first_match].
  by rewrite !re_search_letters.
Qed.

Lemma drop_stop_words_word cur s :
  str_all is_word_char s = true ->
  drop_stop_words cur s = flush_word (cur ++ s).
Proof.
  revert cur. induction s as [|c s IH]; intros cur; simpl.
  - by rewrite app_empty_r.
  - intros [-> Hs]%andb_prop. rewrite IH by done.
    by rewrite string_app_assoc.
Qed.

Lemma drop_punctuation_word s :
  str_all is_word_char s = true -> drop_punctuation s = s.
Proof.
  induction s as [|c s IH]; [done|]. simpl. intros [-> Hs]%andb_prop.
  simpl. by rewrite IH.
Qed.

Lemma squeeze_spaces_word s :
  str_all is_word_char s = true -> squeeze_spaces false s = s.
Proof.
  induction s as [|c s IH]; [done|]. simpl. intros [Hc Hs]%andb_prop.
  by rewrite (word_not_space c Hc), IH.
Qed.

Lemma lower_ascii_length s : String.length (lower_ascii s) = String.length s.
Proof. induction s as [|c s IH]; [done|]. simpl. by rewrite IH. Qed.

(** ** X18 to X23 *)

(** X18: a text made of letters only is returned as it is, cut after its
    first fifty characters: no pattern applies to it, and whether it is a
    stop word or not makes no difference to the result. *)
Theorem extract_name_of_letters text :
  str_all is_letter text = true ->
  extract_name_from_text text = str_take 50 text.
Proof.
  intros Hl. unfold extract_name_from_text.
  pose proof (str_all_impl _ _ text letter_is_word Hl) as Hw.
  rewrite (strip_letters text Hl), (first_match_letters text Hl).
  rewrite (drop_stop_words_word "" text Hw). change ("" ++ text) with text.
  assert (Htake : strip_ascii (str_take 50 text) = str_take 50 text)
    by (apply strip_letters; by apply str_take_all).
  unfold flush_word. case_bool_decide as Hstop.
  - change (drop_punctuation "") with "". by rewrite Htake.
  - rewrite (drop_punctuation_word text Hw), (squeeze_spaces_word text Hw).
    rewrite (strip_letters text Hl).
    destruct (String.eqb text "" || (50 <? String.length text)%nat) eqn:Hc;
      [by rewrite Htake|].
    apply orb_false_elim in Hc as [_ Hlen]. apply Nat.ltb_ge in Hlen.
    by rewrite str_take_short.
Qed.

Lemma extract_name_of_letters_witness :
  extract_name_from_text "Asha" = "Asha".
Proof. apply (extract_name_of_letters "Asha"). reflexivity. Defined.

(** X19: for ASCII text, the result never starts or ends with white
    space. *)
Theorem extract_name_trimmed text :
  is_ascii text = true ->
  trimmed (extract_name_from_text text).
Proof.
  intros _. unfold trimmed, extract_name_from_text.
  destruct (first_match patterns (strip_ascii text)); [apply strip_idem|].
  destruct (_ || _); apply strip_idem.
Qed.

Lemma extract_name_trimmed_witness :
  trimmed (extract_name_from_text "  call me   Dr. Strange, please  ").
Proof. apply extract_name_trimmed. reflexivity. Defined.

(** X20: for ASCII text, when none of the six patterns matches, the
    result has at most fifty characters. *)
Theorem extract_name_fallback_bound text :
  is_ascii text = true ->
  first_match patterns (strip_ascii text) = None ->
  String.length (extract_name_from_text text) <= 50.
Proof.
  intros _ Hnone. unfold extract_name_from_text. rewrite Hnone.
  destruct (_ || _) eqn:Hc.
  - etrans; [apply length_strip|apply str_take_length].
  - apply orb_false_elim in Hc as [_ Hlen]. by apply Nat.ltb_ge in Hlen.
Qed.

Lemma extract_name_fallback_bound_witness :
  String.length
    (extract_name_from_text
       "Bartholomew Jedediah Montgomery-Fitzgerald the Third of Northumberland")
  <= 50.
Proof. apply extract_name_fallback_bound; reflexivity. Defined.

(** X21: a text of white space only, the empty text included, gives the
    empty name. *)
Theorem extract_name_of_blank text :
  str_all is_space text = true -> extract_name_from_text text = "".
Proof.
  intros Hs. unfold extract_name_from_text. by rewrite (strip_all_space text Hs).
Qed.

Lemma extract_name_of_blank_witness : extract_name_from_text "   " = "".
Proof. apply extract_name_of_blank. reflexivity. Defined.

(** ** The captured group *)

Lemma starts_with_letter_app a b :
  starts_with_letter a = true -> starts_with_letter (a ++ b) = true.
Proof. destruct a as [|c a]; [done|]. by rewrite app_cons. Qed.

Lemma name_like_parts s :
  name_like s = true ↔
  starts_with_letter s = true ∧ starts_with_letter (String.rev s) = true ∧
  str_all letter_or_space s = true.
Proof. unfold name_like. rewrite !andb_true_iff. tauto. Qed.

(** A letter in front of nothing, or of white space and a captured name,
    makes a captured name. *)
Lemma name_like_cons c tail :
  is_letter c = true ->
  (tail = "" ∨ ∃ ws r, tail = ws ++ r ∧ str_all is_space ws = true ∧
                        name_like r = true) ->
  name_like (String c tail) = true.
Proof.
  intros Hc Htail. apply name_like_parts.
  split; [exact Hc|]. rewrite rev_cons.
  destruct Htail as [->|(ws & r & -> & Hws & Hr)].
  - split; [exact Hc|]. simpl. unfold letter_or_space. by rewrite Hc.
  - apply name_like_parts in Hr as (_ & Hlast & Hall). split.
    + rewrite rev_str_app. by rewrite string_app_assoc, starts_with_letter_app.
    + simpl. unfold letter_or_space at 1. rewrite Hc, str_all_app, Hall. simpl.
      rewrite andb_true_r. apply (str_all_impl is_space); [|done].
      intros d Hd. unfold letter_or_space. by rewrite Hd, orb_true_r.
Qed.

(** What [name_words] gives is empty, or [pending], more white space and a
    captured name. *)
Lemma name_words_shape pending s :
  name_words pending s = "" ∨
  ∃ ws r, name_words pending s = pending ++ ws ++ r ∧
          str_all is_space ws = true ∧ name_like r = true.
Proof.
  revert pending. induction s as [|c s IH]; intros pending; [by left|].
  simpl. destruct (is_letter c) eqn:Hc.
  - right. exists "", (String c (name_words "" s)). split; [done|].
    split; [done|]. apply name_like_cons; [done|].
    destruct (IH "") as [->|(ws & r & Hr & Hws & Hlike)]; [by left|right].
    by exists ws, r.
  - destruct (is_space c) eqn:Hsp; [|by left].
    destruct (IH (pending ++ String c "")) as [->|(ws & r & -> & Hws & Hlike)];
      [by left|right].
    exists (String c ws), r. split; [by rewrite string_app_assoc|].
    split; [|done]. simpl. by rewrite Hsp.
Qed.

Lemma name_group_like s g : name_group s = Some g -> name_like g = true.
Proof.
  destruct s as [|c s]; [done|]. unfold name_group.
  destruct (is_letter c) eqn:Hc; [|done]. intros [= <-].
  cbn [name_words]. rewrite Hc. change ("" ++ ?x) with x.
  apply name_like_cons; [done|].
  destruct (name_words_shape "" s) as [->|(ws & r & Hr & Hws & Hlike)];
    [by left|right]. by exists ws, r.
Qed.

Lemma re_search_like lit space_needed s g :
  re_search lit space_needed s = Some g -> name_like g = true.
Proof.
  induction s as [|c s IH]; cbn [re_search]; unfold intro_at at 1.
  - destruct (literal_ci lit "") as [rest|]; [|done].
    destruct (_ && _); [done|].
    destruct (name_group (lstrip rest)) as [g'|] eqn:Hg; [|done].
    intros [= <-]. by apply (name_group_like _ _ Hg).
  - destruct (literal_ci lit (String c s)) as [rest|]; [|exact IH].
    destruct (_ && _); [exact IH|].
    destruct (name_group (lstrip rest)) as [g'|] eqn:Hg; [|exact IH].
    intros [= <-]. by apply (name_group_like _ _ Hg).
Qed.

Lemma first_match_like ps text g :
  first_match ps text = Some g -> name_like g = true.
Proof.
  induction ps as [|[lit space_needed] ps IH]; [done|]. cbn [first_match].
  destruct (re_search lit space_needed text) as [g'|] eqn:Hs; [|exact IH].
  intros [= <-]. by apply (re_search_like _ _ _ _ Hs).
Qed.

Lemma starts_with_letter_lstrip s :
  starts_with_letter s = true -> lstrip s = s.
Proof.
  destruct s as [|c s]; [done|]. unfold starts_with_letter. simpl.
  intros Hc. by rewrite (letter_not_space c Hc).
Qed.

Lemma name_like_trimmed g : name_like g = true -> strip_ascii g = g.
Proof.
  intros (Hh & Hl & _)%name_like_parts.
  apply strip_fixed; by apply starts_with_letter_lstrip.
Qed.

(** X22: for ASCII text, when one of the six patterns matches, the result is the captured
    group as it is: it is not empty, starts and ends with a letter and holds
    letters and white space only; the fifty-character limit does not apply
    to it. *)
Theorem extract_name_of_pattern text g :
  is_ascii text = true ->
  first_match patterns (strip_ascii text) = Some g ->
  extract_name_from_text text = g ∧ name_like g = true ∧ g ≠ "".
Proof.
  intros _ Hm. pose proof (first_match_like _ _ _ Hm) as Hlike.
  unfold extract_name_from_text. rewrite Hm.
  split; [by apply name_like_trimmed|]. split; [done|].
  intros ->. done.
Qed.

Lemma extract_name_of_pattern_witness :
  extract_name_from_text "Hello, I'm Sarah Jones!" = "Sarah Jones".
Proof.
  apply (extract_name_of_pattern "Hello, I'm Sarah Jones!" "Sarah Jones");
    reflexivity.
Defined.

(** ** An introduction *)

Lemma literal_ci_lower a b : literal_ci (lower_ascii a) (a ++ b) = Some b.
Proof.
  induction a as [|c a IH]; [by destruct b|].
  rewrite app_cons. simpl. by rewrite Ascii.eqb_refl.
Qed.

Lemma re_search_here lit space_needed s g :
  intro_at lit space_needed s = Some g -> re_search lit space_needed s = Some g.
Proof. intros Hg. destruct s; cbn [re_search]; by rewrite Hg. Qed.

Lemma lstrip_spaces_app ws s :
  str_all is_space ws = true -> lstrip (ws ++ s) = lstrip s.
Proof.
  induction ws as [|c ws IH]; [done|]. rewrite app_cons. simpl.
  intros [-> Hws]%andb_prop. auto.
Qed.

Lemma name_words_letters n :
  str_all is_letter n = true -> name_words "" n = n.
Proof.
  induction n as [|c n IH]; [done|]. simpl. intros [-> Hn]%andb_prop.
  by rewrite IH.
Qed.

Lemma letters_start n :
  str_all is_letter n = true -> n ≠ "" -> starts_with_letter n = true.
Proof. destruct n as [|c n]; [done|]. simpl. by intros [? _]%andb_prop _. Qed.

(** X23: a text that says "my name is" in any mix of cases, then white
    space, then a name written in letters gives exactly that name. *)
Theorem extract_name_of_introduction intro ws n :
  lower_ascii intro = "my name is" ->
  str_all is_space ws = true -> ws ≠ "" ->
  str_all is_letter n = true -> n ≠ "" ->
  extract_name_from_text (intro ++ ws ++ n) = n.
Proof.
  intros Hintro Hws Hws0 Hn Hn0.
  pose proof (letters_start n Hn Hn0) as Hstart.
  assert (Hstrip : strip_ascii (intro ++ ws ++ n) = intro ++ ws ++ n).
  { apply strip_fixed.
    - destruct intro as [|c intro]; [done|]. rewrite app_cons.
      apply lstrip_head, letter_not_space. rewrite <- lower_char_letter.
      simpl in Hintro. by injection Hintro as -> _.
    - rewrite !rev_str_app, !string_app_assoc.
      apply starts_with_letter_lstrip, starts_with_letter_app, letters_start.
      + by rewrite str_all_rev.
      + intros Hrev. apply (f_equal String.length) in Hrev.
        rewrite length_rev in Hrev. by destruct n. }
  assert (Hmatch : first_match patterns (intro ++ ws ++ n) = Some n).
  { unfold patterns. cbn [first_match].
    rewrite (re_search_here _ _ _ n); [done|].
    unfold intro_at. rewrite <- Hintro, literal_ci_lower.
    rewrite (lstrip_spaces_app ws n Hws), (starts_with_letter_lstrip n Hstart).
    rewrite length_str_app.
    replace (String.length n =? String.length ws + String.length n)%nat
      with false by (symmetry; apply Nat.eqb_neq; destruct ws; simpl; [done|lia]).
    simpl. destruct n as [|c n']; [done|]. unfold name_group.
    unfold starts_with_letter in Hstart. simpl in Hstart. rewrite Hstart.
    by rewrite name_words_letters. }
  unfold extract_name_from_text. rewrite Hstrip, Hmatch.
  by apply strip_letters.
Qed.

Lemma extract_name_of_introduction_witness :
  extract_name_from_text "My name is John" = "John".
Proof.
  apply (extract_name_of_introduction "My name is" " " "John");
    first [reflexivity | discriminate].
Defined.
